(** * The AI gateway service of tp-edit-nest: parameter normalisation,
      error classification and the two generation executors.

    A shallow embedding of [AiService] (src/modules/ai/ai.service.ts, with
    [getModelsByProvider] of src/modules/ai/models.enum.ts), followed by the
    properties of the specification that concern it. *)

From Stdlib Require Import ZArith NArith QArith Qabs Qround Qminmax.
From Stdlib Require Import List String Ascii Bool Lia DecimalString DecimalN.
From stdpp Require Import gmap strings.
Import ListNotations.

Local Open Scope Z_scope.
Local Open Scope list_scope.

(** ** JavaScript strings

    A JavaScript string is a sequence of 16-bit code units; [includes],
    [trim] and string concatenation all work on code units. *)

Module JsString.

Definition jsstring : Type := list N.

(** Source literals are written as Rocq strings (UTF-8 bytes) and decoded
    to code units. Every literal of the service lies in the Basic
    Multilingual Plane, so sequences of one, two and three bytes suffice. *)
Fixpoint utf8_decode (bs : list N) : jsstring :=
  match bs with
  | [] => []
  | b0 :: r0 =>
      if (b0 <? 128)%N then b0 :: utf8_decode r0
      else if (b0 <? 224)%N then
        match r0 with
        | b1 :: r1 => ((b0 - 192) * 64 + (b1 - 128))%N :: utf8_decode r1
        | [] => []
        end
      else
        match r0 with
        | b1 :: b2 :: r2 =>
            ((b0 - 224) * 4096 + (b1 - 128) * 64 + (b2 - 128))%N
              :: utf8_decode r2
        | _ => []
        end
  end.

Definition lit (s : string) : jsstring :=
  utf8_decode (map N_of_ascii (list_ascii_of_string s)).

(** The double quote, U+0022, which template literals of the service embed. *)
Definition dquote : jsstring := [34%N].

(** [!s] for a string: only the empty string is falsy. *)
Definition truthy (s : jsstring) : bool :=
  match s with [] => false | _ :: _ => true end.

(** [a || b] on strings. *)
Definition or_else (a b : jsstring) : jsstring :=
  if truthy a then a else b.

(** [a === b] on strings. *)
Fixpoint eqb (a b : jsstring) : bool :=
  match a, b with
  | [], [] => true
  | x :: a', y :: b' => (x =? y)%N && eqb a' b'
  | _, _ => false
  end.

(** ECMAScript WhiteSpace and LineTerminator code points, the ones
    [String.prototype.trim] strips. *)
Definition isWhiteSpace (c : N) : bool :=
  ((9 <=? c) && (c <=? 13) || (c =? 32) || (c =? 160) || (c =? 5760)
   || (8192 <=? c) && (c <=? 8202) || (c =? 8232) || (c =? 8233)
   || (c =? 8239) || (c =? 8287) || (c =? 12288) || (c =? 65279))%N.

Fixpoint trimStart (s : jsstring) : jsstring :=
  match s with
  | [] => []
  | c :: r => if isWhiteSpace c then trimStart r else s
  end.

Fixpoint trimEnd (s : jsstring) : jsstring :=
  match s with
  | [] => []
  | c :: r =>
      match trimEnd r with
      | [] => if isWhiteSpace c then [] else [c]
      | r' => c :: r'
      end
  end.

Definition trim (s : jsstring) : jsstring := trimEnd (trimStart s).

Fixpoint startsWith (s p : jsstring) : bool :=
  match p, s with
  | [], _ => true
  | _ :: _, [] => false
  | a :: p', b :: s' => (a =? b)%N && startsWith s' p'
  end.

(** [s.includes(needle)]. *)
Fixpoint includes (s needle : jsstring) : bool :=
  startsWith s needle
  || match s with
     | [] => false
     | _ :: r => includes r needle
     end.

(** [xs.join(sep)]. *)
Fixpoint join (sep : jsstring) (xs : list jsstring) : jsstring :=
  match xs with
  | [] => []
  | [x] => x
  | x :: rest => x ++ sep ++ join sep rest
  end.

(** [xs.includes(x)] on an array of strings (strict equality). *)
Definition arrayIncludes (xs : list jsstring) (x : jsstring) : bool :=
  existsb (eqb x) xs.

(** Decimal rendering of a non-negative integer. *)
Definition decimal (n : N) : jsstring :=
  lit (NilEmpty.string_of_uint (N.to_uint n)).

End JsString.

Import JsString.

(** ** JavaScript numbers

    A number is NaN, an infinity or a finite double. Every finite double is
    a rational, and [Math.abs], [Math.floor], [Math.min], [Math.max] and the
    comparisons are exact on doubles, so on rationals they compute what the
    program computes. The two zeros of the format are identified, as [===]
    does. *)

Module JsNumber.

Inductive number : Type :=
| NaN
| Infinity (negative : bool)
| Finite (q : Q).

Definition isNaN (x : number) : bool :=
  match x with NaN => true | _ => false end.

Definition isFinite (x : number) : bool :=
  match x with Finite _ => true | _ => false end.

Definition Math_abs (x : number) : number :=
  match x with
  | NaN => NaN
  | Infinity _ => Infinity false
  | Finite q => Finite (Qabs q)
  end.

Definition Math_floor (x : number) : number :=
  match x with
  | Finite q => Finite (inject_Z (Qfloor q))
  | other => other
  end.

Definition Math_ceil (x : number) : number :=
  match x with
  | Finite q => Finite (inject_Z (Qceiling q))
  | other => other
  end.

Definition Math_min (x y : number) : number :=
  match x, y with
  | NaN, _ | _, NaN => NaN
  | Infinity true, _ | _, Infinity true => Infinity true
  | Infinity false, other | other, Infinity false => other
  | Finite a, Finite b => Finite (Qmin a b)
  end.

Definition Math_max (x y : number) : number :=
  match x, y with
  | NaN, _ | _, NaN => NaN
  | Infinity false, _ | _, Infinity false => Infinity false
  | Infinity true, other | other, Infinity true => other
  | Finite a, Finite b => Finite (Qmax a b)
  end.

(** [x < y]; a comparison with NaN is false. *)
Definition lt (x y : number) : bool :=
  match x, y with
  | NaN, _ | _, NaN => false
  | Infinity true, Infinity true => false
  | Infinity true, _ => true
  | _, Infinity true => false
  | Infinity false, _ => false
  | Finite _, Infinity false => true
  | Finite a, Finite b =>
      match (a ?= b)%Q with Lt => true | _ => false end
  end.

Definition gt (x y : number) : bool := lt y x.

(** Truthiness of a number: zero and NaN are falsy. *)
Definition truthy (x : number) : bool :=
  match x with
  | NaN => false
  | Infinity _ => true
  | Finite q => negb (Qeq_bool q 0)
  end.

Definition of_Z (z : Z) : number := Finite (inject_Z z).

End JsNumber.

Import JsNumber.

(** ** Exceptions and fallible computations *)

(** The exceptions the service raises. [TypeError] is what calling a method
    of a non-entry would raise; the normaliser rules this case out before
    any such call. *)
Inductive Exception : Type :=
| BadRequestException (message : jsstring)
| InternalServerErrorException (message : jsstring)
| TypeError.

Definition message_of (e : Exception) : jsstring :=
  match e with
  | BadRequestException m | InternalServerErrorException m => m
  | TypeError => []
  end.

Inductive Result (A : Type) : Type :=
| Return (a : A)
| Throw (e : Exception).

Arguments Return {A} a.
Arguments Throw {A} e.

Definition bind {A B : Type} (r : Result A) (k : A -> Result B) : Result B :=
  match r with
  | Return a => k a
  | Throw e => Throw e
  end.

Notation "'do' x <- r ; k" := (bind r (fun x => k))
  (at level 10, x name, r at level 100, k at level 200,
   format "'[v' 'do'  x  <-  r ; '/' k ']'").

(** ** models.enum.ts *)

Definition OpenAIModel : list jsstring :=
  [lit "gpt-4o"; lit "gpt-4o-mini"; lit "gpt-4"; lit "gpt-3.5-turbo"].

Definition DeepSeekModel : list jsstring :=
  [lit "deepseek-v2-chat"; lit "deepseek-chat"; lit "deepseek-coder"].

Definition GeminiModel : list jsstring :=
  [lit "gemini-3-flash-preview"; lit "gemini-2.5-pro"; lit "gemini-2.5-flash"].

(** The [switch] of [getModelsByProvider], on the run-time string. *)
Definition getModelsByProvider (provider : jsstring) : list jsstring :=
  if JsString.eqb provider (lit "openai") then OpenAIModel
  else if JsString.eqb provider (lit "deepseek") then DeepSeekModel
  else if JsString.eqb provider (lit "gemini") then GeminiModel
  else [].

(** ** The provider table of [AiService] *)

Inductive ProviderId : Type := openai | deepseek | gemini.

Definition id_of (p : ProviderId) : jsstring :=
  match p with
  | openai => lit "openai"
  | deepseek => lit "deepseek"
  | gemini => lit "gemini"
  end.

Definition label (p : ProviderId) : jsstring :=
  match p with
  | openai => lit "OpenAI"
  | deepseek => lit "DeepSeek"
  | gemini => lit "Google Gemini"
  end.

(** The environment variable each [create] reads. *)
Definition envKey (p : ProviderId) : jsstring :=
  match p with
  | openai => lit "OPENAI_API_KEY"
  | deepseek => lit "DEEPSEEK_API_KEY"
  | gemini => lit "GOOGLE_GENERATIVE_AI_API_KEY"
  end.

(** [process.env]: a variable is unset or holds a string. *)
Definition Env : Type := jsstring -> option jsstring.

(** What a property read [this.providers[key]] yields. The table is an
    object literal, so besides its three own entries it answers to the
    member names it inherits from [Object.prototype], all of them truthy. *)
Inductive Property : Type :=
| Entry (p : ProviderId)
| Inherited
| undefined.

Definition objectPrototypeNames : list jsstring :=
  [lit "constructor"; lit "toString"; lit "toLocaleString"; lit "valueOf";
   lit "hasOwnProperty"; lit "isPrototypeOf"; lit "propertyIsEnumerable";
   lit "__proto__"; lit "__defineGetter__"; lit "__defineSetter__";
   lit "__lookupGetter__"; lit "__lookupSetter__"].

Definition providers (key : jsstring) : Property :=
  if JsString.eqb key (lit "openai") then Entry openai
  else if JsString.eqb key (lit "deepseek") then Entry deepseek
  else if JsString.eqb key (lit "gemini") then Entry gemini
  else if arrayIncludes objectPrototypeNames key then Inherited
  else undefined.

(** The SDK instance a [create] returns: the provider, bound to its key. *)
Record Provider : Type := mkProvider {
  provider_id : ProviderId;
  apiKey : jsstring
}.

Definition missingKeyMessage (p : ProviderId) : jsstring :=
  match p with
  | openai =>
      lit "环境变量 OPENAI_API_KEY 未配置，无法调用 OpenAI 模型"
  | deepseek =>
      lit "环境变量 DEEPSEEK_API_KEY 未配置，无法调用 DeepSeek 模型。请访问 https://platform.deepseek.com/ 获取 API Key"
  | gemini =>
      lit "环境变量 GOOGLE_GENERATIVE_AI_API_KEY 未配置，无法调用 Gemini 模型。请访问 https://aistudio.google.com/app/apikey 获取 API Key"
  end.

(** [providers[p].create()]: [!apiKey] holds for an unset variable and for
    an empty one. *)
Definition create (env : Env) (p : ProviderId) : Result Provider :=
  match env (envKey p) with
  | Some key =>
      if JsString.truthy key then Return (mkProvider p key)
      else Throw (InternalServerErrorException (missingKeyMessage p))
  | None => Throw (InternalServerErrorException (missingKeyMessage p))
  end.

(** ** Requests *)

(** [GenerateTextDto] as the service receives it; [None] stands for
    [undefined] and [null], which every test of the service treats alike. *)
Record GenerateTextDto : Type := mkDto {
  provider : jsstring;
  model : option jsstring;
  prompt : option jsstring;
  system : option jsstring;
  temperature : option number;
  maxTokens : option number;
  stream : bool
}.

(** The object [validateAndNormalizeParams] returns. *)
Record Normalized : Type := mkNormalized {
  n_providerId : jsstring;
  n_model : jsstring;
  n_prompt : jsstring;
  n_system : option jsstring;
  n_temperature : option number;
  n_maxTokens : option number
}.

(** [!s || !s.trim()] for an optional string. *)
Definition blank (s : option jsstring) : bool :=
  match s with
  | None => true
  | Some v => negb (JsString.truthy v) || negb (JsString.truthy (trim v))
  end.

Definition validateModel (providerId model : jsstring) : bool :=
  arrayIncludes (getModelsByProvider providerId) model.

Definition wrongModelMessage (model providerId : jsstring) : jsstring :=
  lit "模型 " ++ dquote ++ model ++ dquote ++ lit " 不属于提供方 " ++ dquote
    ++ providerId ++ dquote ++ lit "。"
    ++ lit "可用模型: " ++ join (lit ", ") (getModelsByProvider providerId).

(** The block that normalises [maxTokens]. *)
Definition normalizeMaxTokens (v : option number) : Result (option number) :=
  match v with
  | None => Return None
  | Some tokenValue =>
      if isNaN tokenValue || negb (isFinite tokenValue) then
        Throw (BadRequestException (lit "maxTokens 必须是有效的数字"))
      else
        let maxTokens := Math_floor (Math_abs tokenValue) in
        if JsNumber.lt maxTokens (of_Z 1) then
          Throw (BadRequestException (lit "maxTokens 必须大于 0"))
        else if JsNumber.gt maxTokens (of_Z 1000000) then
          Throw (BadRequestException (lit "maxTokens 不能超过 1000000"))
        else Return (Some maxTokens)
  end.

(** The block that normalises [temperature]. *)
Definition normalizeTemperature (v : option number) : Result (option number) :=
  match v with
  | None => Return None
  | Some tempValue =>
      if isNaN tempValue || negb (isFinite tempValue) then
        Throw (BadRequestException (lit "temperature 必须是有效的数字"))
      else Return (Some (Math_max (of_Z 0) (Math_min (of_Z 2) tempValue)))
  end.

(** The four checks that precede the numeric blocks: provider, model name,
    model membership, prompt or system. *)
Definition validateNames (payload : GenerateTextDto) : Result jsstring :=
  let providerId := provider payload in
  match providers providerId with
  | undefined =>
      Throw (BadRequestException (lit "不支持的模型提供方: " ++ providerId))
  | _ =>
      match model payload with
      | None => Throw (BadRequestException (lit "模型名称不能为空"))
      | Some m =>
          if blank (Some m) then
            Throw (BadRequestException (lit "模型名称不能为空"))
          else if negb (validateModel providerId m) then
            Throw (BadRequestException (wrongModelMessage m providerId))
          else if blank (prompt payload) && blank (system payload) then
            Throw (BadRequestException (lit "prompt 和 system 至少需要提供一个"))
          else Return m
      end
  end.

Definition validateAndNormalizeParams (payload : GenerateTextDto)
  : Result Normalized :=
  do m <- validateNames payload;
  do maxTokens <- normalizeMaxTokens (maxTokens payload);
  do temperature <- normalizeTemperature (temperature payload);
  Return {|
    n_providerId := provider payload;
    n_model := trim m;
    n_prompt := or_else (from_option trim [] (prompt payload)) [];
    n_system := option_map trim (system payload);
    n_temperature := temperature;
    n_maxTokens := maxTokens
  |}.

(** What [Math.max(0, Math.min(2, t))] is on a finite [t]. *)
Definition clamp (q : Q) : Q := Qmax (inject_Z 0) (Qmin (inject_Z 2) q).

(** What [Math.floor(Math.abs(t))] is on a finite [t]. *)
Definition floorAbs (q : Q) : Z := Qfloor (Qabs q).

(** The request with one optional field replaced. *)
Definition with_temperature (t : option number) (p : GenerateTextDto)
  : GenerateTextDto :=
  mkDto (provider p) (model p) (prompt p) (system p) t (maxTokens p)
    (stream p).

Definition with_maxTokens (t : option number) (p : GenerateTextDto)
  : GenerateTextDto :=
  mkDto (provider p) (model p) (prompt p) (system p) (temperature p) t
    (stream p).

(** ** Upstream errors *)

(** [error.data.error], the payload a provider nests in its error. *)
Record ProviderPayload : Type := mkPayload {
  p_status : option jsstring;
  p_message : option jsstring
}.

(** The value caught around the SDK call, seen through the optional chains
    of the handler: every field may be missing ([None]), and a thrown
    [null] or [undefined] is the record with every field missing. *)
Record RawError : Type := mkError {
  e_parameter : option jsstring;
  e_message : option jsstring;
  e_status : option Z;
  e_statusCode : option Z;
  e_data_error : option ProviderPayload;
  e_toString : option jsstring
}.

(** The categories of the specification; in the source each is one branch
    of the handler, named by its comment (400, 402, 429, 403, 401, other). *)
Inductive Category : Type :=
| BadRequest
| InsufficientBalance
| RateLimited
| ForbiddenLeaked
| ForbiddenOther
| Unauthorized
| Internal.

(** [error?.message?.includes(text)]. *)
Definition messageIncludes (error : RawError) (text : jsstring) : bool :=
  match e_message error with
  | Some m => includes m text
  | None => false
  end.

(** [error?.status === n || error?.statusCode === n]. *)
Definition statusIs (error : RawError) (n : Z) : bool :=
  match e_status error with Some s => s =? n | None => false end
  || match e_statusCode error with Some s => s =? n | None => false end.

(** [error?.data?.error?.status === text]. *)
Definition payloadStatusIs (error : RawError) (text : jsstring) : bool :=
  match e_data_error error with
  | Some payload =>
      match p_status payload with
      | Some s => JsString.eqb s text
      | None => false
      end
  | None => false
  end.

Definition opt_truthy (o : option jsstring) : bool :=
  match o with Some s => JsString.truthy s | None => false end.

(** [a || b] where [a] may be undefined. *)
Definition opt_or_else (a : option jsstring) (b : jsstring) : jsstring :=
  match a with Some s => or_else s b | None => b end.

(** The conditions of the five [if]s, in source order. *)
Definition isParameterError (error : RawError) : bool :=
  opt_truthy (e_parameter error)
  || messageIncludes error (lit "Invalid argument")
  || messageIncludes error (lit "must be").

Definition isBalanceError (error : RawError) : bool :=
  statusIs error 402
  || messageIncludes error (lit "Insufficient Balance")
  || messageIncludes error (lit "余额不足").

Definition isRateLimitError (error : RawError) : bool :=
  statusIs error 429
  || payloadStatusIs error (lit "RESOURCE_EXHAUSTED")
  || messageIncludes error (lit "quota")
  || messageIncludes error (lit "rate limit")
  || messageIncludes error (lit "Rate limit")
  || messageIncludes error (lit "exceeded your current quota").

Definition isPermissionError (error : RawError) : bool :=
  statusIs error 403
  || payloadStatusIs error (lit "PERMISSION_DENIED")
  || messageIncludes error (lit "leaked")
  || messageIncludes error (lit "reported as leaked").

Definition isAuthError (error : RawError) : bool :=
  statusIs error 401
  || messageIncludes error (lit "Unauthorized")
  || messageIncludes error (lit "Invalid")
  || messageIncludes error (lit "API key").

(** [error?.data?.error?.message || error?.message || ''], the text the
    429 and 403 branches inspect. *)
Definition errorMessage (error : RawError) : jsstring :=
  opt_or_else
    (match e_data_error error with
     | Some payload => p_message payload
     | None => None
     end)
    (opt_or_else (e_message error) []).

(** *** The regular expression [/Please retry in ([\d.]+)s/i]

    Under the [i] flag a pattern character matches its two ASCII cases and
    nothing else. The class [[\d.]] does not contain [s], so the greedy
    [+] can only succeed on the whole run of digits and dots. *)

Definition toUpperAscii (c : N) : N :=
  if ((97 <=? c) && (c <=? 122))%N then (c - 32)%N else c.

Definition isDigit (c : N) : bool := ((48 <=? c) && (c <=? 57))%N.

Definition isDigitOrDot (c : N) : bool := isDigit c || (c =? 46)%N.

(** Matches [pat] at the head of [s], ignoring case; returns what follows. *)
Fixpoint matchIgnoreCase (pat s : jsstring) : option jsstring :=
  match pat, s with
  | [], _ => Some s
  | _ :: _, [] => None
  | a :: pat', b :: s' =>
      if (toUpperAscii a =? toUpperAscii b)%N then matchIgnoreCase pat' s'
      else None
  end.

Fixpoint span (f : N -> bool) (s : jsstring) : jsstring * jsstring :=
  match s with
  | [] => ([], [])
  | c :: r =>
      if f c then let (a, b) := span f r in (c :: a, b) else ([], s)
  end.

(** The capture group when the expression matches at the head of [s]. *)
Definition matchHere (s : jsstring) : option jsstring :=
  match matchIgnoreCase (lit "Please retry in ") s with
  | Some rest =>
      match span isDigitOrDot rest with
      | ((_ :: _) as captured, c :: _) =>
          if (toUpperAscii c =? 83)%N then Some captured else None
      | _ => None
      end
  | None => None
  end.

(** [text.match(...)]: the capture group of the leftmost match. *)
Fixpoint retryDelayMatch (text : jsstring) : option jsstring :=
  match matchHere text with
  | Some captured => Some captured
  | None =>
      match text with
      | [] => None
      | _ :: r => retryDelayMatch r
      end
  end.

(** The texts the expression matches: [text] holds, after [pre],
    "Please retry in " in any letter case, the non-empty run [n] of digits
    and dots, and the letter s in either case. *)
Definition phraseAt (pre n rest text : jsstring) : Prop :=
  exists phrase c,
    text = pre ++ phrase ++ n ++ c :: rest
    /\ map toUpperAscii phrase = map toUpperAscii (lit "Please retry in ")
    /\ n <> []
    /\ Forall (fun x => isDigitOrDot x = true) n
    /\ toUpperAscii c = 83%N.

Definition digitsValue (ds : jsstring) : Z :=
  fold_left (fun acc d => 10 * acc + (Z.of_N d - 48)) ds 0.

(** [parseFloat] on a run of digits and dots: the longest prefix of the
    form digits, dot, digits with at least one digit, NaN when there is
    none. The value is the exact decimal; a double carries it with a
    rounding that [Math.ceil] cannot see as long as the text has at most 15
    significant digits. *)
Definition parseFloat (s : jsstring) : number :=
  let (intPart, rest) := span isDigit s in
  let fracPart :=
    match rest with
    | 46%N :: r => fst (span isDigit r)
    | _ => []
    end in
  match intPart ++ fracPart with
  | [] => NaN
  | ds => Finite (digitsValue ds # Z.to_pos (10 ^ Z.of_nat (length fracPart)))
  end.

(** The text of a number that [Math.ceil] returned, as a template literal
    renders it: the plain decimal of the integer. This is the program's
    text for integers below 10^15, the range in which the delay is read. *)
Definition Number_toString (x : number) : jsstring :=
  match x with
  | NaN => lit "NaN"
  | Infinity false => lit "Infinity"
  | Infinity true => lit "-Infinity"
  | Finite q =>
      let z := Qfloor q in
      if z <? 0 then lit "-" ++ decimal (Z.to_N (- z)) else decimal (Z.to_N z)
  end.

(** The line feed of the template literals. *)
Definition nl : jsstring := [10%N].

Definition envVarName (providerId : jsstring) : jsstring :=
  if JsString.eqb providerId (lit "deepseek") then lit "DEEPSEEK_API_KEY"
  else if JsString.eqb providerId (lit "gemini") then
    lit "GOOGLE_GENERATIVE_AI_API_KEY"
  else lit "OPENAI_API_KEY".

(** [retryDelayMatch ? Math.ceil(parseFloat(retryDelayMatch[1])) : null]. *)
Definition retryDelay (text : jsstring) : option number :=
  match retryDelayMatch text with
  | Some captured => Some (Math_ceil (parseFloat captured))
  | None => None
  end.

(** [if (retryDelay)]: [null], 0 and NaN are falsy. *)
Definition delayTruthy (d : option number) : bool :=
  match d with Some x => JsNumber.truthy x | None => false end.

Definition delayText (d : option number) : jsstring :=
  match d with Some x => Number_toString x | None => lit "null" end.

(** The message the 429 branch builds. *)
Definition rateLimitMessage (providerId : jsstring) (error : RawError)
  : jsstring :=
  let errorMessage := errorMessage error in
  let retryDelay := retryDelay errorMessage in
  let message := lit "API 配额已用完或达到速率限制。" in
  if JsString.eqb providerId (lit "gemini") then
    let message :=
      message ++ nl ++ nl ++ lit "Google Gemini 免费层配额已用完。" in
    let message :=
      if includes errorMessage (lit "gemini-3-pro") then
        message ++ nl ++ lit "注意：gemini-3-pro 是预览模型，免费层配额有限。"
      else message in
    let message := message ++ nl ++ nl ++ lit "解决方案：" in
    let message :=
      message ++ nl ++ lit "1. 等待配额重置（通常每天重置）" in
    let message :=
      message ++ nl
        ++ lit "2. 查看配额使用情况：https://ai.dev/usage?tab=rate-limit" in
    let message :=
      message ++ nl
        ++ lit "3. 了解配额限制：https://ai.google.dev/gemini-api/docs/rate-limits" in
    if delayTruthy retryDelay then
      message ++ nl ++ lit "4. 建议等待 " ++ delayText retryDelay
        ++ lit " 秒后重试"
    else message
  else if JsString.eqb providerId (lit "deepseek") then
    let message :=
      message ++ nl ++ nl
        ++ lit "请访问 https://platform.deepseek.com/ 检查账户配额和速率限制。" in
    if delayTruthy retryDelay then
      message ++ nl ++ lit "建议等待 " ++ delayText retryDelay
        ++ lit " 秒后重试"
    else message
  else
    let message :=
      message ++ nl ++ nl ++ lit "请检查账户配额和速率限制设置。" in
    if delayTruthy retryDelay then
      message ++ nl ++ lit "建议等待 " ++ delayText retryDelay
        ++ lit " 秒后重试"
    else message.

(** [error?.message || error?.toString() || fallback]. *)
Definition describe (error : RawError) (fallback : jsstring) : jsstring :=
  opt_or_else (e_message error) (opt_or_else (e_toString error) fallback).

(** The [catch] block of [generateText]: the branch taken, and the
    exception it throws. The first condition that holds decides. *)
Definition handleError (p : ProviderId) (error : RawError)
  : Category * Exception :=
  let providerId := id_of p in
  if isParameterError error then
    (BadRequest,
     BadRequestException
       (lit "参数错误: " ++ describe error (lit "未知参数错误")))
  else if isBalanceError error then
    (InsufficientBalance,
     BadRequestException
       (lit "账户余额不足。请访问 https://platform.deepseek.com/ 检查账户余额并充值。"
          ++ nl ++ lit "提示：新注册账户可能需要先完成账户验证或激活免费额度。"))
  else if isRateLimitError error then
    (RateLimited, BadRequestException (rateLimitMessage providerId error))
  else if isPermissionError error then
    if includes (errorMessage error) (lit "leaked") then
      (ForbiddenLeaked,
       BadRequestException
         (lit "API Key 已被标记为泄露。请立即更换新的 API Key。" ++ nl
            ++ lit "环境变量: " ++ envVarName providerId ++ nl
            ++ lit "Google Gemini: 请访问 https://aistudio.google.com/app/apikey 生成新的 API Key"))
    else
      (ForbiddenOther,
       BadRequestException
         (lit "API Key 权限被拒绝（403）。请检查环境变量 "
            ++ envVarName providerId ++ lit " 是否有足够的权限。"))
  else if isAuthError error then
    (Unauthorized,
     BadRequestException
       (lit "API Key 认证失败。请检查环境变量 " ++ envVarName providerId
          ++ lit " 是否正确配置。"))
  else
    (Internal,
     InternalServerErrorException
       (lit "调用 " ++ label p ++ lit " 模型失败: "
          ++ describe error (lit "未知错误"))).

Definition category_of (p : ProviderId) (error : RawError) : Category :=
  fst (handleError p error).

Definition thrown (p : ProviderId) (error : RawError) : Exception :=
  snd (handleError p error).

(** ** The two executors *)

(** A value stored in [requestParams]. [LanguageModel] is [provider(model)],
    the model bound to the SDK instance. *)
Inductive ParamValue : Type :=
| LanguageModel (sdk : Provider) (model : jsstring)
| Text (s : jsstring)
| Num (x : number).

(** What the SDK's [generateText] resolves to, as far as the service reads
    it. *)
Record SdkResult : Type := mkSdkResult {
  text : jsstring;
  finishReason : option jsstring;
  usage : list (string * number)
}.

Inductive Settled : Type :=
| Resolved (result : SdkResult)
| Rejected (error : RawError).

Record GenerateTextResult : Type := mkResult {
  r_provider : jsstring;
  r_model : jsstring;
  r_text : jsstring;
  r_finishReason : option jsstring;
  r_usage : list (string * number)
}.

(** [requestParams] as [generateText] builds it. *)
Definition syncRequestParams (sdk : Provider) (c : Normalized)
  : gmap string ParamValue :=
  let requestParams :=
    <["prompt" := Text (n_prompt c)]>
      (<["model" := LanguageModel sdk (n_model c)]> ∅) in
  let requestParams :=
    match n_system c with
    | Some system =>
        if JsString.truthy system then
          <["system" := Text system]> requestParams
        else requestParams
    | None => requestParams
    end in
  let requestParams :=
    match n_temperature c with
    | Some temperature => <["temperature" := Num temperature]> requestParams
    | None => requestParams
    end in
  match n_maxTokens c with
  | Some maxTokens => <["maxOutputTokens" := Num maxTokens]> requestParams
  | None => requestParams
  end.

(** [requestParams] as [generateTextStream] builds it. *)
Definition streamRequestParams (sdk : Provider) (c : Normalized)
  : gmap string ParamValue :=
  let requestParams :=
    <["prompt" := Text (n_prompt c)]>
      (<["model" := LanguageModel sdk (n_model c)]> ∅) in
  let requestParams :=
    match n_system c with
    | Some system =>
        if JsString.truthy system then
          <["system" := Text system]> requestParams
        else requestParams
    | None => requestParams
    end in
  let requestParams :=
    match n_temperature c with
    | Some temperature => <["temperature" := Num temperature]> requestParams
    | None => requestParams
    end in
  match n_maxTokens c with
  | Some maxTokens => <["maxTokens" := Num maxTokens]> requestParams
  | None => requestParams
  end.

(** [generateText]. [env] is [process.env]; [sdk] is the SDK call, which
    resolves or rejects. *)
Definition generateText (env : Env) (sdk : gmap string ParamValue -> Settled)
    (payload : GenerateTextDto) : Result GenerateTextResult :=
  do c <- validateAndNormalizeParams payload;
  match providers (n_providerId c) with
  | Entry p =>
      do provider <- create env p;
      match sdk (syncRequestParams provider c) with
      | Resolved result =>
          Return {|
            r_provider := n_providerId c;
            r_model := n_model c;
            r_text := text result;
            r_finishReason := finishReason result;
            r_usage := usage result
          |}
      | Rejected error => Throw (thrown p error)
      end
  | _ => Throw TypeError
  end.

(** *** Streaming *)

(** The [data] of an emitted event: [JSON.stringify({ [field]: value })]
    or a literal string. *)
Inductive EventData : Type :=
| JSON_stringify (field : string) (value : jsstring)
| Literal (s : jsstring).

(** The notifications of a subscriber. *)
Inductive Signal : Type :=
| next (data : EventData)
| complete
| error (e : RawError).

(** What the record of a run holds, in order of time: a notification
    delivered to the consumer, or the consumer unsubscribing. *)
Inductive Moment : Type :=
| Delivered (s : Signal)
| Unsubscribed.

Record Subscriber : Type := mkSubscriber {
  closed : bool;
  moments : list Moment
}.

Definition fresh : Subscriber := mkSubscriber false [].

(** The subscriber of RxJS: a closed subscriber drops what it is sent;
    [complete] and [error] close it. *)
Definition sub_next (data : EventData) (s : Subscriber) : Subscriber :=
  if closed s then s
  else mkSubscriber false (moments s ++ [Delivered (next data)]).

Definition sub_complete (s : Subscriber) : Subscriber :=
  if closed s then s
  else mkSubscriber true (moments s ++ [Delivered complete]).

Definition sub_error (e : RawError) (s : Subscriber) : Subscriber :=
  if closed s then s
  else mkSubscriber true (moments s ++ [Delivered (error e)]).

Definition unsubscribe (s : Subscriber) : Subscriber :=
  if closed s then s
  else mkSubscriber true (moments s ++ [Unsubscribed]).

(** What can happen while the executor awaits: the upstream stream yields
    a chunk, the upstream call or stream fails, or the consumer
    unsubscribes. The end of the list is the end of the upstream stream. *)
Inductive Happening : Type :=
| Chunk (chunk : jsstring)
| Fails (error : RawError)
| Unsubscribe.

(** After the loop: the end marker, to a subscriber that is still open. *)
Definition afterLoop (s : Subscriber) : Subscriber :=
  if negb (closed s) then
    sub_complete (sub_next (Literal (lit "[DONE]")) s)
  else s.

(** The [catch] block of the executor. *)
Definition catchBlock (e : RawError) (s : Subscriber) : Subscriber :=
  if negb (closed s) then
    let errorMessage := opt_or_else (e_message e) (lit "流式生成失败") in
    sub_error e (sub_next (JSON_stringify "error" errorMessage) s)
  else s.

(** [await streamText(...)] and the [for await] loop over [textStream]. *)
Fixpoint forAwait (timeline : list Happening) (s : Subscriber) : Subscriber :=
  match timeline with
  | [] => afterLoop s
  | Unsubscribe :: rest => forAwait rest (unsubscribe s)
  | Fails e :: _ => catchBlock e s
  | Chunk chunk :: rest =>
      if closed s then afterLoop s
      else forAwait rest (sub_next (JSON_stringify "content" chunk) s)
  end.

(** *** The executor, step by step

    The same executor with the record of what it does itself, in order of
    time: the loop receives a chunk of [textStream], the executor reads
    [subscriber.closed], calls a method of the subscriber (delivered or
    not), leaves the loop by [break], which returns the iterator so that
    nothing more is pulled from the upstream, or enters its [catch] block;
    and, where it happened while the executor awaited, the consumer
    unsubscribing (once: a second [unsubscribe] does nothing). *)
Inductive Step : Type :=
| Pulled (chunk : jsstring)
| Tested (answer : bool)
| Called (s : Signal)
| Broke
| Caught (e : RawError)
| Cancelled.

Record Run : Type := mkRun {
  subscriber : Subscriber;
  steps : list Step
}.

Definition start : Run := mkRun fresh [].

(** [if (!subscriber.closed) { subscriber.next({ data: '[DONE]' });
    subscriber.complete(); }]. *)
Definition afterLoopSteps (r : Run) : Run :=
  let s := subscriber r in
  let tested := steps r ++ [Tested (closed s)] in
  if negb (closed s) then
    mkRun (sub_complete (sub_next (Literal (lit "[DONE]")) s))
      (tested ++ [Called (next (Literal (lit "[DONE]"))); Called complete])
  else mkRun s tested.

(** [catch (error) { if (!subscriber.closed) { ... } }]. *)
Definition catchBlockSteps (e : RawError) (r : Run) : Run :=
  let s := subscriber r in
  let tested := steps r ++ [Caught e; Tested (closed s)] in
  if negb (closed s) then
    let errorMessage := opt_or_else (e_message e) (lit "流式生成失败") in
    mkRun (sub_error e (sub_next (JSON_stringify "error" errorMessage) s))
      (tested ++ [Called (next (JSON_stringify "error" errorMessage));
                  Called (error e)])
  else mkRun s tested.

(** [await streamText(...)] and the [for await] loop, with its steps. *)
Fixpoint executor (timeline : list Happening) (r : Run) : Run :=
  match timeline with
  | [] => afterLoopSteps r
  | Unsubscribe :: rest =>
      let s := subscriber r in
      executor rest
        (mkRun (unsubscribe s)
           (if closed s then steps r else steps r ++ [Cancelled]))
  | Fails e :: _ => catchBlockSteps e r
  | Chunk chunk :: rest =>
      let s := subscriber r in
      let tested := steps r ++ [Pulled chunk; Tested (closed s)] in
      if closed s then afterLoopSteps (mkRun s (tested ++ [Broke]))
      else
        executor rest
          (mkRun (sub_next (JSON_stringify "content" chunk) s)
             (tested ++ [Called (next (JSON_stringify "content" chunk))]))
  end.

(** What the executor does once the consumer has unsubscribed, by what the
    upstream does next: the stream ends and the test after the loop fails;
    or one more chunk arrives, the test in the loop finds the subscriber
    closed, the loop is left and the test after it fails; or the upstream
    fails and the test in the [catch] block fails. *)
Definition stopped (tail : list Step) : Prop :=
  tail = [Tested true]
  \/ (exists chunk, tail = [Pulled chunk; Tested true; Broke; Tested true])
  \/ (exists e, tail = [Caught e; Tested true]).

(** Steps of one kind that each come right after the step [y], and steps
    of one kind that are each followed at once by a step of another. *)
Definition preceded (P : Step -> Prop) (y : Step) (t : list Step) : Prop :=
  forall a x b, t = a ++ x :: b -> P x -> exists a', a = a' ++ [y].

Definition followed (P Q : Step -> Prop) (t : list Step) : Prop :=
  forall a x b, t = a ++ x :: b -> P x -> exists y b', b = y :: b' /\ Q y.

Definition isFragment (x : Step) : Prop := exists d, x = Called (next d).

Definition isPulled (x : Step) : Prop := exists chunk, x = Pulled chunk.

Definition isTested (x : Step) : Prop := exists v, x = Tested v.

(** The observable [generateTextStream] returns holds the parameters its
    executor will pass to [streamText]. *)
Record Observable : Type := mkObservable {
  o_provider : ProviderId;
  o_requestParams : gmap string ParamValue
}.

Definition generateTextStream (env : Env) (payload : GenerateTextDto)
  : Result Observable :=
  do c <- validateAndNormalizeParams payload;
  match providers (n_providerId c) with
  | Entry p =>
      do provider <- create env p;
      Return (mkObservable p (streamRequestParams provider c))
  | _ => Throw TypeError
  end.

(** Subscribing runs the executor once, against what the world does with
    the one [streamText] call. *)
Definition subscribe (world : gmap string ParamValue -> list Happening)
    (o : Observable) : list Moment :=
  moments (forAwait (world (o_requestParams o)) fresh).

(** The notifications among the moments. *)
Definition deliveries (ms : list Moment) : list Signal :=
  flat_map (fun m => match m with Delivered s => [s] | Unsubscribed => [] end)
    ms.

(** ** What the framework answers *)

Inductive Json : Type :=
| JString (s : jsstring)
| JNumber (z : Z).

(** The body NestJS serialises for an exception: an HTTP exception built
    from a message alone carries [statusCode], [message] and [error]; any
    other throwable is answered with the generic 500 body. *)
Definition getResponse (e : Exception) : gmap string Json :=
  match e with
  | BadRequestException m =>
      <["statusCode" := JNumber 400]>
        (<["message" := JString m]>
           (<["error" := JString (lit "Bad Request")]> ∅))
  | InternalServerErrorException m =>
      <["statusCode" := JNumber 500]>
        (<["message" := JString m]>
           (<["error" := JString (lit "Internal Server Error")]> ∅))
  | TypeError =>
      <["statusCode" := JNumber 500]>
        (<["message" := JString (lit "Internal server error")]> ∅)
  end.

(** ** The rest of the service and its controller *)

(** *** Listings *)

(** [ModelDisplayNames], in source order; the keys looked up are the values
    of the three enums. *)
Definition ModelDisplayNames : list (jsstring * jsstring) :=
  [(lit "gpt-4o", lit "GPT-4o");
   (lit "gpt-4o-mini", lit "GPT-4o Mini");
   (lit "gpt-4", lit "GPT-4");
   (lit "gpt-3.5-turbo", lit "GPT-3.5 Turbo");
   (lit "deepseek-v2-chat", lit "DeepSeek V2 Chat");
   (lit "deepseek-chat", lit "DeepSeek Chat");
   (lit "deepseek-coder", lit "DeepSeek Coder");
   (lit "gemini-3-flash-preview", lit "Gemini 3 Pro");
   (lit "gemini-2.5-pro", lit "Gemini 2.5 Pro");
   (lit "gemini-2.5-flash", lit "Gemini 2.5 Flash")].

(** [ModelDisplayNames[model]]. *)
Fixpoint displayName (table : list (jsstring * jsstring)) (model : jsstring)
  : option jsstring :=
  match table with
  | [] => None
  | (key, name) :: rest =>
      if JsString.eqb key model then Some name else displayName rest model
  end.

(** The objects the two listings return. *)
Record Listed : Type := mkListed {
  l_id : jsstring;
  l_label : jsstring
}.

(** [getAvailableProviders]: the entries of the table, in insertion order. *)
Definition getAvailableProviders : list Listed :=
  map (fun p => mkListed (id_of p) (label p)) [openai; deepseek; gemini].

(** [getAvailableModels]. *)
Definition getAvailableModels (provider : jsstring) : list Listed :=
  map (fun model =>
         mkListed model
           (opt_or_else (displayName ModelDisplayNames model) model))
    (getModelsByProvider provider).

(** [AiController.getModels]; [None] is a missing query parameter. *)
Definition getModels (provider : option jsstring) : Result (list Listed) :=
  match provider with
  | None => Throw (BadRequestException (lit "不支持的模型提供方"))
  | Some provider =>
      if negb (JsString.truthy provider)
         || negb (arrayIncludes [lit "openai"; lit "deepseek"; lit "gemini"]
                    provider)
      then Throw (BadRequestException (lit "不支持的模型提供方"))
      else Return (getAvailableModels provider)
  end.

(** *** Reading a run of the executor *)

(** The chunks the upstream yields before anything else happens. *)
Fixpoint leadingChunks (timeline : list Happening) : list jsstring :=
  match timeline with
  | Chunk chunk :: rest => chunk :: leadingChunks rest
  | _ => []
  end.

(** The first thing that is not a chunk, if any. *)
Fixpoint interruption (timeline : list Happening) : option Happening :=
  match timeline with
  | [] => None
  | Chunk _ :: rest => interruption rest
  | other :: _ => Some other
  end.

Definition contentMoment (chunk : jsstring) : Moment :=
  Delivered (next (JSON_stringify "content" chunk)).

Definition doneMoment : Moment := Delivered (next (Literal (lit "[DONE]"))).

Definition errorMoment (e : RawError) : Moment :=
  Delivered
    (next (JSON_stringify "error"
             (opt_or_else (e_message e) (lit "流式生成失败")))).

(** How a run ends, by what interrupted the chunks. *)
Definition ending (h : option Happening) : list Moment :=
  match h with
  | None => [doneMoment; Delivered complete]
  | Some (Fails e) => [errorMoment e; Delivered (error e)]
  | Some Unsubscribe => [Unsubscribed]
  | Some (Chunk _) => []
  end.

(** An optional string that is missing or made of white space only. *)
Definition onlyWhiteSpace (o : option jsstring) : Prop :=
  match o with
  | None => True
  | Some s => Forall (fun c => isWhiteSpace c = true) s
  end.

(** What [if (system) requestParams.system = system] stores. *)
Definition systemSent (c : Normalized) : option ParamValue :=
  match n_system c with
  | Some s => if JsString.truthy s then Some (Text s) else None
  | None => None
  end.

(** *** [JSON.stringify] of a string *)

Definition hexDigit (n : N) : N := if (n <? 10)%N then (48 + n)%N else (87 + n)%N.

(** The escape of a code unit as a backslash, [u] and four lower-case
    hexadecimal digits. *)
Definition unicodeEscape (c : N) : jsstring :=
  [92; 117; hexDigit (c / 4096); hexDigit ((c / 256) mod 16);
   hexDigit ((c / 16) mod 16); hexDigit (c mod 16)]%N.

Definition isLeadingSurrogate (c : N) : bool :=
  ((55296 <=? c) && (c <=? 56319))%N.

Definition isTrailingSurrogate (c : N) : bool :=
  ((56320 <=? c) && (c <=? 57343))%N.

(** A code unit that is not a surrogate: the short escapes, the escape of
    the other control characters, or the unit itself. *)
Definition quoteUnit (c : N) : jsstring :=
  if (c =? 8)%N then [92; 98]%N
  else if (c =? 9)%N then [92; 116]%N
  else if (c =? 10)%N then [92; 110]%N
  else if (c =? 12)%N then [92; 102]%N
  else if (c =? 13)%N then [92; 114]%N
  else if (c =? 34)%N then [92; 34]%N
  else if (c =? 92)%N then [92; 92]%N
  else if (c <? 32)%N then unicodeEscape c
  else [c].

(** A surrogate pair is kept; a surrogate on its own is escaped. *)
Fixpoint quoteUnits (s : jsstring) : jsstring :=
  match s with
  | [] => []
  | c :: r =>
      if isLeadingSurrogate c then
        match r with
        | d :: r' =>
            if isTrailingSurrogate d then c :: d :: quoteUnits r'
            else unicodeEscape c ++ quoteUnits r
        | [] => unicodeEscape c
        end
      else if isTrailingSurrogate c then unicodeEscape c ++ quoteUnits r
      else quoteUnit c ++ quoteUnits r
  end.

Definition QuoteJSONString (s : jsstring) : jsstring :=
  dquote ++ quoteUnits s ++ dquote.

(** The string an [EventData] stands for. *)
Definition render (d : EventData) : jsstring :=
  match d with
  | JSON_stringify field value =>
      lit "{" ++ QuoteJSONString (lit field) ++ lit ":"
        ++ QuoteJSONString value ++ lit "}"
  | Literal s => s
  end.

(** *** [AiController.generate] *)

Inductive Body : Type :=
| resultBody (result : GenerateTextResult)
| failureBody (error message : jsstring).

(** What the handler sends: [res.write(s)], or [res.json(body)] with the
    status the handler set, if it set one. *)
Inductive Sent : Type :=
| wrote (s : jsstring)
| json (status : option Z) (body : Body).

(** The Express response, as far as the handler reads and changes it;
    [gone] is [res.destroyed || res.closed]. *)
Record Response : Type := mkResponse {
  headers : list (jsstring * jsstring);
  headersSent : bool;
  gone : bool;
  writableEnded : bool;
  sent : list Sent
}.

Definition newResponse : Response := mkResponse [] false false false [].

Definition setHeader (name value : jsstring) (res : Response) : Response :=
  mkResponse (headers res ++ [(name, value)]) (headersSent res) (gone res)
    (writableEnded res) (sent res).

Definition flushHeaders (res : Response) : Response :=
  mkResponse (headers res) true (gone res) (writableEnded res) (sent res).

Definition res_write (s : jsstring) (res : Response) : Response :=
  mkResponse (headers res) true (gone res) (writableEnded res)
    (sent res ++ [wrote s]).

Definition res_end (res : Response) : Response :=
  mkResponse (headers res) true (gone res) true (sent res).

Definition res_json (status : option Z) (body : Body) (res : Response)
  : Response :=
  mkResponse (headers res) true (gone res) true
    (sent res ++ [json status body]).

(** The client leaves: the response closes, and the handler of its
    [close] event unsubscribes. *)
Definition res_close (res : Response) : Response :=
  mkResponse (headers res) (headersSent res) true (writableEnded res)
    (sent res).

(** [`data: ${data}\n\n`]. *)
Definition dataFrame (data : jsstring) : jsstring :=
  lit "data: " ++ data ++ nl ++ nl.

Definition keepAlive : jsstring := lit ": keep-alive" ++ nl ++ nl.

(** The three callbacks of the subscription, and the [close] event, applied
    to one moment of a run. [errorText] is the text the [error] callback
    takes from the error, [error.message] for an [Error] and
    [String(error)] otherwise; [res.write] is taken not to throw. *)
Definition observer (errorText : RawError -> jsstring) (res : Response)
    (m : Moment) : Response :=
  match m with
  | Delivered (next event) =>
      if gone res || writableEnded res then res
      else res_write (dataFrame (render event)) res
  | Delivered (error e) =>
      if negb (gone res) && negb (writableEnded res) then
        if negb (headersSent res) then
          res_json (Some 500)
            (failureBody (lit "流式生成失败") (errorText e)) res
        else
          res_end
            (res_write
               (dataFrame (render (JSON_stringify "error" (errorText e))))
               res)
      else res
  | Delivered complete =>
      if negb (gone res) && negb (writableEnded res) then res_end res
      else res
  | Unsubscribed => res_close res
  end.

(** The response of a streaming request before the service is called. *)
Definition sseOpened : Response :=
  res_write keepAlive
    (flushHeaders
       (setHeader (lit "Access-Control-Allow-Origin") (lit "*")
          (setHeader (lit "X-Accel-Buffering") (lit "no")
             (setHeader (lit "Connection") (lit "keep-alive")
                (setHeader (lit "Cache-Control") (lit "no-cache")
                   (setHeader (lit "Content-Type") (lit "text/event-stream")
                      newResponse)))))).

(** [generate]: the response at the end, and the exception that left the
    handler, if one did. *)
Definition generate (env : Env) (sdk : gmap string ParamValue -> Settled)
    (world : gmap string ParamValue -> list Happening)
    (errorText : RawError -> jsstring) (body : GenerateTextDto)
  : Response * option Exception :=
  if stream body then
    match generateTextStream env body with
    | Throw e => (sseOpened, Some e)
    | Return observable =>
        (fold_left (observer errorText) (subscribe world observable) sseOpened,
         None)
    end
  else
    match generateText env sdk body with
    | Throw e => (newResponse, Some e)
    | Return result => (res_json None (resultBody result) newResponse, None)
    end.

(** A written string that is one event of the stream: the keep-alive
    comment, or a data frame whose payload holds no control character. *)
Definition oneEvent (s : jsstring) : Prop :=
  s = keepAlive
  \/ exists payload,
       s = dataFrame payload /\ Forall (fun c => (32 <= c)%N) payload.

(** The frame written for a chunk. *)
Definition contentFrame (chunk : jsstring) : Sent :=
  wrote (dataFrame (render (JSON_stringify "content" chunk))).

(** The frames that end a response, by what interrupted the chunks. *)
Definition closingFrames (errorText : RawError -> jsstring)
    (h : option Happening) : list Sent :=
  match h with
  | None => [wrote (dataFrame (lit "[DONE]"))]
  | Some (Fails e) =>
      [wrote (dataFrame
                (render (JSON_stringify "error"
                           (opt_or_else (e_message e) (lit "流式生成失败")))));
       wrote (dataFrame (render (JSON_stringify "error" (errorText e))))]
  | _ => []
  end.

(** The canonical object handed back as a request. *)
Definition as_request (s : bool) (c : Normalized) : GenerateTextDto :=
  mkDto (n_providerId c) (Some (n_model c)) (Some (n_prompt c)) (n_system c)
    (n_temperature c) (n_maxTokens c) s.

(** ** Sample requests *)

Module Samples.

Definition request (mt temp : option number) : GenerateTextDto :=
  mkDto (lit "openai") (Some (lit "gpt-4o")) (Some (lit " hi ")) None
    temp mt false.

Definition negativeTokens : GenerateTextDto :=
  request (Some (Finite (-7 # 2))) None.

Definition hotRequest : GenerateTextDto :=
  request None (Some (Finite (5 # 2))).

Definition onlyStatus (code : Z) (msg : string) : RawError :=
  mkError None (Some (lit msg)) (Some code) None None None.

(** A 403 whose message is an argument error naming the key. *)
Definition invalidArgument403 : RawError :=
  onlyStatus 403 "Invalid argument: API key not valid".

(** A 403 whose message reads like an authentication failure. *)
Definition invalidKey403 : RawError := onlyStatus 403 "Invalid API key".

Definition quota429 : RawError :=
  onlyStatus 429 "You exceeded your current quota. Please retry in 37.5s.".

Definition rateLimit429 : RawError := onlyStatus 429 "Rate limit reached".

(** A 403 whose own message speaks of a leak while the provider's nested
    message does not. *)
Definition maskedLeak403 : RawError :=
  mkError None (Some (lit "API key was reported as leaked")) (Some 403) None
    (Some (mkPayload None (Some (lit "Permission denied on resource"))))
    None.

(** A request for DeepSeek, and an environment with no variable set. *)
Definition deepseekRequest : GenerateTextDto :=
  mkDto (lit "deepseek") (Some (lit "deepseek-chat")) (Some (lit "hi")) None
    None None false.

Definition emptyEnv : Env := fun _ => None.

(** A canonical request with a token limit, and an SDK instance. *)
Definition limited : Normalized :=
  mkNormalized (lit "openai") (lit "gpt-4o") (lit "hi") None None
    (Some (of_Z 100)).

Definition openaiSdk : Provider := mkProvider openai (lit "sk-test").

(** Three chunks, then the upstream fails with a rate-limit error. *)
Definition threeThenRateLimit : list Happening :=
  [Chunk (lit "a"); Chunk (lit "b"); Chunk (lit "c"); Fails rateLimit429].

(** One chunk, then the consumer leaves while the upstream goes on. *)
Definition leftAfterOne : list Happening :=
  [Chunk (lit "a"); Unsubscribe; Chunk (lit "b")].

End Samples.

(** * Properties of the service *)

(** ** Facts about numbers *)

Section NumberFacts.

Lemma lt_of_Z (a b : Z) : JsNumber.lt (of_Z a) (of_Z b) = (a <? b).
Proof.
  unfold JsNumber.lt, of_Z, Qcompare, inject_Z; simpl.
  rewrite !Z.mul_1_r. unfold Z.ltb. reflexivity.
Qed.

Lemma gt_of_Z (a b : Z) : JsNumber.gt (of_Z a) (of_Z b) = (b <? a).
Proof. unfold JsNumber.gt. apply lt_of_Z. Qed.

Lemma floor_abs_of_Z (z : Z) :
  0 <= z -> Math_floor (Math_abs (of_Z z)) = of_Z z.
Proof.
  intros Hz. unfold of_Z, inject_Z; simpl.
  rewrite Z.abs_eq by assumption.
  unfold inject_Z. rewrite Z.div_1_r. reflexivity.
Qed.

Lemma clamp_bounds (q : Q) : (0 <= clamp q)%Q /\ (clamp q <= 2)%Q.
Proof.
  unfold clamp. split.
  - apply Q.le_max_l.
  - apply Q.max_lub; [discriminate | apply Q.le_min_l].
Qed.

Lemma clamp_inside (q : Q) : (0 <= q)%Q -> (q <= 2)%Q -> (clamp q == q)%Q.
Proof.
  intros H0 H2. unfold clamp.
  rewrite (Q.min_r _ _ H2). apply Q.max_r. exact H0.
Qed.

Lemma clamp_below (q : Q) : (q < 0)%Q -> (clamp q == 0)%Q.
Proof.
  intros H. unfold clamp.
  apply Q.max_l.
  apply Qle_trans with q; [apply Q.le_min_r | apply Qlt_le_weak; exact H].
Qed.

Lemma clamp_above (q : Q) : (2 < q)%Q -> (clamp q == 2)%Q.
Proof.
  intros H. unfold clamp.
  rewrite (Q.min_l (inject_Z 2) q) by (apply Qlt_le_weak; exact H).
  apply Q.max_r. discriminate.
Qed.

(** Clamping returns the literal bound or the very argument, so clamping a
    clamped value returns the same term. *)
Lemma clamp_idem (q : Q) : clamp (clamp q) = clamp q.
Proof.
  unfold clamp, Qmax, Qmin, GenericMinMax.gmax, GenericMinMax.gmin.
  destruct (inject_Z 2 ?= q)%Q eqn:E2;
    [reflexivity | reflexivity | ].
  destruct (inject_Z 0 ?= q)%Q eqn:E0;
    [reflexivity | | reflexivity].
  rewrite E2, E0. reflexivity.
Qed.

End NumberFacts.

(** ** The normaliser *)

Section Normaliser.

Implicit Types (payload : GenerateTextDto) (v t : number) (q : Q).

Lemma floor_abs_finite q :
  Math_floor (Math_abs (Finite q)) = of_Z (floorAbs q).
Proof. reflexivity. Qed.

Lemma normalizeMaxTokens_finite q :
  normalizeMaxTokens (Some (Finite q)) =
    if floorAbs q <? 1 then
      Throw (BadRequestException (lit "maxTokens 必须大于 0"))
    else if 1000000 <? floorAbs q then
      Throw (BadRequestException (lit "maxTokens 不能超过 1000000"))
    else Return (Some (of_Z (floorAbs q))).
Proof.
  unfold normalizeMaxTokens.
  cbn [isNaN isFinite negb orb].
  rewrite floor_abs_finite, lt_of_Z, gt_of_Z. reflexivity.
Qed.

Lemma normalizeMaxTokens_not_finite v :
  isFinite v = false ->
  normalizeMaxTokens (Some v) =
    Throw (BadRequestException (lit "maxTokens 必须是有效的数字")).
Proof. destruct v; [reflexivity | reflexivity | discriminate]. Qed.

Lemma normalizeTemperature_finite q :
  normalizeTemperature (Some (Finite q)) = Return (Some (Finite (clamp q))).
Proof. reflexivity. Qed.

Lemma normalizeTemperature_not_finite t :
  isFinite t = false ->
  normalizeTemperature (Some t) =
    Throw (BadRequestException (lit "temperature 必须是有效的数字")).
Proof. destruct t; [reflexivity | reflexivity | discriminate]. Qed.

(** Each block raises nothing but a BadRequest. *)
Lemma validateNames_throws payload e :
  validateNames payload = Throw e -> exists msg, e = BadRequestException msg.
Proof.
  unfold validateNames.
  destruct (providers (provider payload));
    (destruct (model payload) as [m|];
     [destruct (blank (Some m)); [|destruct (validateModel (provider payload) m); cbn [negb];
        [destruct (blank (prompt payload) && blank (system payload))|]]|]);
    intros H; inversion H; eauto.
Qed.

Lemma normalizeMaxTokens_throws (o : option number) e :
  normalizeMaxTokens o = Throw e -> exists msg, e = BadRequestException msg.
Proof.
  destruct o as [[| |q]|]; try (intros H; inversion H; eauto; fail).
  rewrite normalizeMaxTokens_finite.
  destruct (floorAbs q <? 1); [|destruct (1000000 <? floorAbs q)];
    intros H; inversion H; eauto.
Qed.

Lemma normalizeTemperature_throws (o : option number) e :
  normalizeTemperature o = Throw e -> exists msg, e = BadRequestException msg.
Proof.
  destruct o as [[| |q]|]; intros H; inversion H; eauto.
Qed.

Lemma validate_throws payload e :
  validateAndNormalizeParams payload = Throw e ->
  exists msg, e = BadRequestException msg.
Proof.
  unfold validateAndNormalizeParams, bind.
  destruct (validateNames payload) eqn:E1;
    [|intros H; inversion H; subst; eauto using validateNames_throws].
  destruct (normalizeMaxTokens _) eqn:E2;
    [|intros H; inversion H; subst; eauto using normalizeMaxTokens_throws].
  destruct (normalizeTemperature _) eqn:E3;
    [|intros H; inversion H; subst; eauto using normalizeTemperature_throws].
  discriminate.
Qed.

(** A successful run, read backwards. *)
Lemma validate_returns payload c :
  validateAndNormalizeParams payload = Return c ->
  exists m,
    validateNames payload = Return m
    /\ normalizeMaxTokens (maxTokens payload) = Return (n_maxTokens c)
    /\ normalizeTemperature (temperature payload) = Return (n_temperature c)
    /\ n_providerId c = provider payload
    /\ n_model c = trim m
    /\ n_prompt c = or_else (from_option trim [] (prompt payload)) []
    /\ n_system c = option_map trim (system payload).
Proof.
  unfold validateAndNormalizeParams, bind.
  destruct (validateNames payload) as [m|] eqn:E1; [|discriminate].
  destruct (normalizeMaxTokens _) eqn:E2; [|discriminate].
  destruct (normalizeTemperature _) eqn:E3; [|discriminate].
  intros H; inversion H; subst; cbn. exists m. repeat split; reflexivity.
Qed.

End Normaliser.

(** C4. For a request that carries [maxTokens]: a value that is not a
    finite number, or whose floored absolute value lies outside
    [1, 1000000], makes the normalisation of [maxTokens] fail with a
    BadRequest whose message names what was violated (not a valid number,
    must be greater than 0, must not exceed 1000000); a value whose floored
    absolute value lies inside the range is accepted and canonical
    [maxTokens] is that floored absolute value, so a negative input is
    sign-flipped, not rejected. In [validateAndNormalizeParams] the block
    runs after the four name checks: once they pass, its failure is the
    failure of the whole call, a rejected value always makes the call fail
    with a BadRequest, and a call that succeeds returns the floored absolute
    value. *)
Theorem maxTokens_floor_abs_range
  (payload : GenerateTextDto) (v : number)
  (Hv : maxTokens payload = Some v) :
  (isFinite v = false ->
     normalizeMaxTokens (maxTokens payload) =
       Throw (BadRequestException (lit "maxTokens 必须是有效的数字")))
  /\ (forall q, v = Finite q -> floorAbs q < 1 ->
        normalizeMaxTokens (maxTokens payload) =
          Throw (BadRequestException (lit "maxTokens 必须大于 0")))
  /\ (forall q, v = Finite q -> 1000000 < floorAbs q ->
        normalizeMaxTokens (maxTokens payload) =
          Throw (BadRequestException (lit "maxTokens 不能超过 1000000")))
  /\ (forall q, v = Finite q -> 1 <= floorAbs q <= 1000000 ->
        normalizeMaxTokens (maxTokens payload) =
          Return (Some (of_Z (floorAbs q))))
  /\ (forall m e, validateNames payload = Return m ->
        normalizeMaxTokens (maxTokens payload) = Throw e ->
        validateAndNormalizeParams payload = Throw e)
  /\ (forall m t' q, validateNames payload = Return m ->
        normalizeTemperature (temperature payload) = Return t' ->
        v = Finite q -> 1 <= floorAbs q <= 1000000 ->
        exists c, validateAndNormalizeParams payload = Return c
                  /\ n_maxTokens c = Some (of_Z (floorAbs q)))
  /\ ((isFinite v = false
       \/ exists q, v = Finite q /\ (floorAbs q < 1 \/ 1000000 < floorAbs q)) ->
      exists msg,
        validateAndNormalizeParams payload = Throw (BadRequestException msg))
  /\ (forall c, validateAndNormalizeParams payload = Return c ->
        exists q, v = Finite q /\ 1 <= floorAbs q <= 1000000
                  /\ n_maxTokens c = Some (of_Z (floorAbs q))).
Proof.
  rewrite Hv.
  assert (Hlow : forall q, floorAbs q < 1 ->
            normalizeMaxTokens (Some (Finite q)) =
              Throw (BadRequestException (lit "maxTokens 必须大于 0"))).
  { intros q Hq. rewrite normalizeMaxTokens_finite.
    destruct (Z.ltb_spec (floorAbs q) 1); [reflexivity | lia]. }
  assert (Hhigh : forall q, 1000000 < floorAbs q ->
            normalizeMaxTokens (Some (Finite q)) =
              Throw (BadRequestException (lit "maxTokens 不能超过 1000000"))).
  { intros q Hq. rewrite normalizeMaxTokens_finite.
    destruct (Z.ltb_spec (floorAbs q) 1); [lia|].
    destruct (Z.ltb_spec 1000000 (floorAbs q)); [reflexivity | lia]. }
  assert (Hin : forall q, 1 <= floorAbs q <= 1000000 ->
            normalizeMaxTokens (Some (Finite q)) =
              Return (Some (of_Z (floorAbs q)))).
  { intros q Hq. rewrite normalizeMaxTokens_finite.
    destruct (Z.ltb_spec (floorAbs q) 1); [lia|].
    destruct (Z.ltb_spec 1000000 (floorAbs q)); [lia | reflexivity]. }
  split; [apply normalizeMaxTokens_not_finite|].
  split; [intros q ->; apply Hlow|].
  split; [intros q ->; apply Hhigh|].
  split; [intros q ->; apply Hin|].
  split.
  { intros m e Hn He. unfold validateAndNormalizeParams, bind.
    rewrite Hn, Hv, He. reflexivity. }
  split.
  { intros m t' q Hn Ht -> Hq. unfold validateAndNormalizeParams, bind.
    rewrite Hn, Hv, (Hin q Hq), Ht. eexists; split; reflexivity. }
  split.
  { intros Hbad.
    assert (exists e, normalizeMaxTokens (Some v) = Throw e) as [e He].
    { destruct Hbad as [Hnf | (q & -> & [Hq | Hq])].
      - rewrite (normalizeMaxTokens_not_finite v Hnf); eauto.
      - rewrite (Hlow q Hq); eauto.
      - rewrite (Hhigh q Hq); eauto. }
    destruct (validateAndNormalizeParams payload) as [c|e'] eqn:E.
    - apply validate_returns in E. destruct E as (m & _ & E & _).
      rewrite Hv, He in E. discriminate.
    - destruct (validate_throws _ _ E) as [msg ->]. eauto. }
  intros c E. apply validate_returns in E. destruct E as (m & _ & E & _).
  rewrite Hv in E. destruct v as [| |q]; try discriminate.
  exists q. rewrite normalizeMaxTokens_finite in E.
  destruct (Z.ltb_spec (floorAbs q) 1); [discriminate|].
  destruct (Z.ltb_spec 1000000 (floorAbs q)); [discriminate|].
  inversion E. repeat split; lia || reflexivity.
Qed.

Lemma maxTokens_floor_abs_range_witness :
  maxTokens Samples.negativeTokens = Some (Finite (-7 # 2))
  /\ normalizeMaxTokens (maxTokens Samples.negativeTokens) =
       Return (Some (of_Z 3)).
Proof.
  split; [reflexivity|].
  destruct (maxTokens_floor_abs_range Samples.negativeTokens
              (Finite (-7 # 2)) eq_refl) as (_ & _ & _ & H & _).
  apply (H (-7 # 2) eq_refl). vm_compute. split; discriminate.
Defined.

(** C5. For a request that carries a temperature: a finite value is never a
    reason to reject, and the canonical temperature lies in [0,2]; a value
    already in [0,2] comes out numerically unchanged, a value below 0 comes
    out as 0 and a value above 2 as 2. A temperature that is not finite
    makes the call fail with a BadRequest. *)
Theorem temperature_clamped
  (payload : GenerateTextDto) (t : number)
  (Ht : temperature payload = Some t) :
  (isFinite t = false ->
     normalizeTemperature (temperature payload) =
       Throw (BadRequestException (lit "temperature 必须是有效的数字")))
  /\ (isFinite t = false ->
      exists msg,
        validateAndNormalizeParams payload = Throw (BadRequestException msg))
  /\ (forall q, t = Finite q ->
      exists q',
        normalizeTemperature (temperature payload) = Return (Some (Finite q'))
        /\ (0 <= q')%Q /\ (q' <= 2)%Q
        /\ ((0 <= q)%Q -> (q <= 2)%Q -> (q' == q)%Q)
        /\ ((q < 0)%Q -> (q' == 0)%Q)
        /\ ((2 < q)%Q -> (q' == 2)%Q))
  /\ (forall q c, t = Finite q ->
      validateAndNormalizeParams payload = Return c ->
      exists q',
        n_temperature c = Some (Finite q')
        /\ (0 <= q')%Q /\ (q' <= 2)%Q
        /\ ((0 <= q)%Q -> (q <= 2)%Q -> (q' == q)%Q)
        /\ ((q < 0)%Q -> (q' == 0)%Q)
        /\ ((2 < q)%Q -> (q' == 2)%Q))
  /\ (forall q e, t = Finite q ->
      validateAndNormalizeParams payload = Throw e ->
      validateAndNormalizeParams (with_temperature None payload) = Throw e).
Proof.
  rewrite Ht.
  assert (Hclamp : forall q,
    (0 <= clamp q)%Q /\ (clamp q <= 2)%Q
    /\ ((0 <= q)%Q -> (q <= 2)%Q -> (clamp q == q)%Q)
    /\ ((q < 0)%Q -> (clamp q == 0)%Q)
    /\ ((2 < q)%Q -> (clamp q == 2)%Q)).
  { intros q. destruct (clamp_bounds q).
    repeat split; auto using clamp_inside, clamp_below, clamp_above. }
  split; [apply normalizeTemperature_not_finite|].
  split.
  { intros Hnf.
    destruct (validateAndNormalizeParams payload) as [c|e] eqn:E.
    - apply validate_returns in E. destruct E as (m & _ & _ & E & _).
      rewrite Ht, (normalizeTemperature_not_finite t Hnf) in E. discriminate.
    - destruct (validate_throws _ _ E) as [msg ->]. eauto. }
  split.
  { intros q ->. exists (clamp q). split; [reflexivity | apply Hclamp]. }
  split.
  { intros q c -> E. apply validate_returns in E.
    destruct E as (m & _ & _ & E & _).
    rewrite Ht, normalizeTemperature_finite in E. inversion E.
    exists (clamp q). split; [reflexivity | apply Hclamp]. }
  intros q e -> E. revert E.
  unfold validateAndNormalizeParams, bind.
  change (validateNames (with_temperature None payload))
    with (validateNames payload).
  change (maxTokens (with_temperature None payload))
    with (maxTokens payload).
  rewrite Ht.
  destruct (validateNames payload); [|trivial].
  destruct (normalizeMaxTokens (maxTokens payload)); [|trivial].
  discriminate.
Qed.

Lemma temperature_clamped_witness :
  temperature Samples.hotRequest = Some (Finite (5 # 2))
  /\ exists q',
       n_temperature
         (mkNormalized (lit "openai") (lit "gpt-4o") (lit "hi") None
            (Some (Finite 2)) None) = Some (Finite q')
       /\ (0 <= q')%Q /\ (q' <= 2)%Q
       /\ ((0 <= 5 # 2)%Q -> (5 # 2 <= 2)%Q -> (q' == 5 # 2)%Q)
       /\ ((5 # 2 < 0)%Q -> (q' == 0)%Q)
       /\ ((2 < 5 # 2)%Q -> (q' == 2)%Q).
Proof.
  split; [reflexivity|].
  destruct (temperature_clamped Samples.hotRequest (Finite (5 # 2)) eq_refl)
    as (_ & _ & _ & H & _).
  apply (H (5 # 2) _ eq_refl). reflexivity.
Defined.

(** ** Strings *)

Section StringFacts.

Implicit Types (s p x : jsstring).

Lemma eqb_true s p : JsString.eqb s p = true <-> s = p.
Proof.
  revert p. induction s as [|c s IH]; intros [|d p]; simpl;
    try (split; [discriminate | discriminate]); [tauto|].
  rewrite andb_true_iff, N.eqb_eq, IH. split.
  - intros [-> ->]. reflexivity.
  - intros H; inversion H; auto.
Qed.

Lemma arrayIncludes_In (xs : list jsstring) x :
  arrayIncludes xs x = true <-> In x xs.
Proof.
  unfold arrayIncludes. rewrite existsb_exists. split.
  - intros (y & Hy & E). apply eqb_true in E. subst. exact Hy.
  - intros H. exists x. split; [exact H | apply eqb_true; reflexivity].
Qed.

Lemma trimStart_idem s : trimStart (trimStart s) = trimStart s.
Proof.
  induction s as [|c r IH]; [reflexivity|]. simpl.
  destruct (isWhiteSpace c) eqn:E; [exact IH|]. simpl. rewrite E. reflexivity.
Qed.

Lemma trimEnd_idem s : trimEnd (trimEnd s) = trimEnd s.
Proof.
  induction s as [|c r IH]; [reflexivity|]. simpl.
  destruct (trimEnd r) as [|d r'] eqn:E.
  - destruct (isWhiteSpace c) eqn:Ec; [reflexivity|]. simpl. rewrite Ec.
    reflexivity.
  - change (trimEnd (c :: d :: r')) with
      (match trimEnd (d :: r') with
       | [] => if isWhiteSpace c then [] else [c]
       | r'' => c :: r''
       end).
    rewrite IH. reflexivity.
Qed.

(** Trimming the end keeps a first code unit that is not white space. *)
Lemma trimEnd_head c r :
  isWhiteSpace c = false -> exists r', trimEnd (c :: r) = c :: r'.
Proof.
  intros Hc. simpl. destruct (trimEnd r); [rewrite Hc|]; eauto.
Qed.

Lemma trimStart_head s :
  trimStart s = [] \/ exists c r, trimStart s = c :: r /\ isWhiteSpace c = false.
Proof.
  induction s as [|c r IH]; [left; reflexivity|]. simpl.
  destruct (isWhiteSpace c) eqn:E; [exact IH|]. right; eauto.
Qed.

Lemma trim_idem s : trim (trim s) = trim s.
Proof.
  unfold trim.
  destruct (trimStart_head s) as [-> | (c & r & -> & Hc)]; [reflexivity|].
  destruct (trimEnd_head c r Hc) as [r' E]. rewrite E.
  simpl trimStart. rewrite Hc. rewrite <- E. apply trimEnd_idem.
Qed.

Lemma startsWith_app x s : startsWith (x ++ s) x = true.
Proof.
  induction x as [|c x IH]; [destruct s; reflexivity|].
  simpl. rewrite N.eqb_refl. exact IH.
Qed.

Lemma includes_app_r p s x : includes s x = true -> includes (p ++ s) x = true.
Proof.
  intros H. induction p as [|c p IH]; [exact H|].
  simpl. rewrite IH. apply orb_true_r.
Qed.

Lemma includes_unfold s x :
  includes s x =
    startsWith s x || match s with [] => false | _ :: r => includes r x end.
Proof. destruct s; reflexivity. Qed.

Lemma includes_prefix x s : includes (x ++ s) x = true.
Proof. rewrite includes_unfold, startsWith_app. reflexivity. Qed.

Lemma includes_infix p x s : includes (p ++ x ++ s) x = true.
Proof. apply includes_app_r, includes_prefix. Qed.

Lemma includes_suffix p x : includes (p ++ x) x = true.
Proof.
  replace (p ++ x) with (p ++ x ++ []) by (rewrite app_nil_r; reflexivity).
  apply includes_infix.
Qed.

Lemma includes_join sep (xs : list jsstring) x :
  In x xs -> includes (join sep xs) x = true.
Proof.
  induction xs as [|y ys IH]; [contradiction|].
  intros [-> | Hin].
  - destruct ys; [simpl; apply (includes_suffix []) | apply includes_prefix].
  - destruct ys as [|z zs]; [contradiction|].
    change (join sep (y :: z :: zs)) with (y ++ sep ++ join sep (z :: zs)).
    apply includes_app_r, includes_app_r, IH, Hin.
Qed.

End StringFacts.

(** ** Models *)

Lemma valid_models_trimmed (providerId m : jsstring) :
  validateModel providerId m = true -> trim m = m.
Proof.
  unfold validateModel. rewrite arrayIncludes_In. unfold getModelsByProvider.
  destruct (JsString.eqb providerId (lit "openai"));
    [|destruct (JsString.eqb providerId (lit "deepseek"));
      [|destruct (JsString.eqb providerId (lit "gemini"))]];
    simpl; intros H;
    repeat (destruct H as [<- | H]; [reflexivity|]); contradiction.
Qed.

Lemma models_of_id (p : ProviderId) :
  getModelsByProvider (id_of p) =
    match p with
    | openai => OpenAIModel
    | deepseek => DeepSeekModel
    | gemini => GeminiModel
    end.
Proof. destruct p; reflexivity. Qed.

Lemma providers_of_id (p : ProviderId) : providers (id_of p) = Entry p.
Proof. destruct p; reflexivity. Qed.

(** C7. For a request whose provider is one of the three known
    identifiers and whose model, non-empty after trimming, is not a member
    of that provider's model list, the normaliser fails with a BadRequest;
    the message ends with the provider's models joined by a comma and a
    space, the complete list, so every valid model of the provider occurs in
    it. *)
Theorem unknown_model_lists_valid_models
  (payload : GenerateTextDto) (p : ProviderId) (m : jsstring)
  (Hprovider : provider payload = id_of p)
  (Hmodel : model payload = Some m)
  (Hnonempty : JsString.truthy (trim m) = true)
  (Hnotin : ~ In m (getModelsByProvider (id_of p))) :
  exists msg before,
    validateAndNormalizeParams payload = Throw (BadRequestException msg)
    /\ msg = before ++ join (lit ", ") (getModelsByProvider (id_of p))
    /\ includes msg (join (lit ", ") (getModelsByProvider (id_of p))) = true
    /\ forall valid, In valid (getModelsByProvider (id_of p)) ->
                     includes msg valid = true.
Proof.
  exists (wrongModelMessage m (id_of p)).
  exists (lit "模型 " ++ dquote ++ m ++ dquote ++ lit " 不属于提供方 " ++ dquote
            ++ id_of p ++ dquote ++ lit "。" ++ lit "可用模型: ").
  assert (Hmsg : wrongModelMessage m (id_of p) =
    (lit "模型 " ++ dquote ++ m ++ dquote ++ lit " 不属于提供方 " ++ dquote
       ++ id_of p ++ dquote ++ lit "。" ++ lit "可用模型: ")
    ++ join (lit ", ") (getModelsByProvider (id_of p))).
  { unfold wrongModelMessage. rewrite <- !app_assoc. reflexivity. }
  split.
  { unfold validateAndNormalizeParams, validateNames, bind.
    rewrite Hprovider, providers_of_id, Hmodel.
    assert (Hm : JsString.truthy m = true).
    { destruct m; [discriminate Hnonempty | reflexivity]. }
    unfold blank. rewrite Hm, Hnonempty. cbn [negb orb].
    destruct (validateModel (id_of p) m) eqn:E; [|reflexivity].
    apply arrayIncludes_In in E. contradiction. }
  split; [exact Hmsg|].
  rewrite Hmsg.
  split; [apply includes_suffix|].
  intros valid Hin. apply includes_app_r, includes_join, Hin.
Qed.

Lemma unknown_model_lists_valid_models_witness :
  exists msg before,
    validateAndNormalizeParams
      (mkDto (lit "openai") (Some (lit "not-a-real-model")) (Some (lit "hi"))
         None None None false)
    = Throw (BadRequestException msg)
    /\ msg = before ++ join (lit ", ") (getModelsByProvider (id_of openai))
    /\ includes msg (join (lit ", ") (getModelsByProvider (id_of openai)))
       = true
    /\ forall valid, In valid (getModelsByProvider (id_of openai)) ->
                     includes msg valid = true.
Proof.
  apply (unknown_model_lists_valid_models
           (mkDto (lit "openai") (Some (lit "not-a-real-model"))
              (Some (lit "hi")) None None None false)
           openai (lit "not-a-real-model") eq_refl eq_refl eq_refl).
  intros H. apply arrayIncludes_In in H. vm_compute in H. discriminate H.
Defined.

(** ** Idempotence *)

Section Idempotence.

Lemma blank_trim (v : jsstring) :
  blank (Some v) = false -> blank (Some (trim v)) = false.
Proof.
  unfold blank. rewrite trim_idem.
  destruct (JsString.truthy (trim v)); [reflexivity|].
  rewrite orb_true_r. discriminate.
Qed.

Lemma blank_false (o : option jsstring) :
  blank o = false -> exists v, o = Some v /\ JsString.truthy (trim v) = true.
Proof.
  destruct o as [v|]; [|discriminate]. unfold blank. intros H.
  apply orb_false_elim in H. destruct H as [_ H].
  exists v. split; [reflexivity|].
  destruct (JsString.truthy (trim v)); [reflexivity | discriminate].
Qed.

Lemma validateNames_returns (payload : GenerateTextDto) (m : jsstring) :
  validateNames payload = Return m ->
  providers (provider payload) <> undefined
  /\ model payload = Some m
  /\ blank (Some m) = false
  /\ validateModel (provider payload) m = true
  /\ blank (prompt payload) && blank (system payload) = false.
Proof.
  unfold validateNames.
  destruct (providers (provider payload)) eqn:Ep;
    (destruct (model payload) as [m'|]; [|discriminate];
     destruct (blank (Some m')) eqn:Eb; [discriminate|];
     destruct (validateModel (provider payload) m') eqn:Ev;
       cbn [negb]; [|discriminate];
     destruct (blank (prompt payload) && blank (system payload)) eqn:Eps;
       [discriminate|]);
    intros H; inversion H; subst; repeat split; try assumption;
    discriminate.
Qed.

Lemma normalizeMaxTokens_idem (o r : option number) :
  normalizeMaxTokens o = Return r -> normalizeMaxTokens r = Return r.
Proof.
  destruct o as [[| |q]|]; try discriminate;
    [|intros H; inversion H; reflexivity].
  rewrite normalizeMaxTokens_finite.
  destruct (Z.ltb_spec (floorAbs q) 1) as [|Hlo]; [discriminate|].
  destruct (Z.ltb_spec 1000000 (floorAbs q)) as [|Hhi]; [discriminate|].
  intros H; inversion H; subst.
  unfold normalizeMaxTokens.
  change (isNaN (of_Z (floorAbs q)) || negb (isFinite (of_Z (floorAbs q))))
    with false. cbv iota.
  rewrite floor_abs_of_Z by lia.
  rewrite lt_of_Z, gt_of_Z.
  destruct (Z.ltb_spec (floorAbs q) 1); [lia|].
  destruct (Z.ltb_spec 1000000 (floorAbs q)); [lia | reflexivity].
Qed.

Lemma normalizeTemperature_idem (o r : option number) :
  normalizeTemperature o = Return r -> normalizeTemperature r = Return r.
Proof.
  destruct o as [[| |q]|]; try discriminate;
    [|intros H; inversion H; reflexivity].
  rewrite normalizeTemperature_finite. intros H; inversion H; subst.
  rewrite normalizeTemperature_finite, clamp_idem. reflexivity.
Qed.

Lemma or_else_trim_idem (o : option jsstring) :
  or_else (trim (or_else (from_option trim [] o) [])) [] =
    or_else (from_option trim [] o) [].
Proof.
  unfold or_else.
  destruct (JsString.truthy (from_option trim [] o)) eqn:E.
  - destruct o as [v|]; [|discriminate E]. simpl in *.
    rewrite trim_idem, E. reflexivity.
  - reflexivity.
Qed.

End Idempotence.

(** C9. Normalisation is idempotent: when the normaliser succeeds on a
    request, it succeeds on the canonical request it returned, and returns
    that same canonical request. *)
Theorem normalize_idempotent
  (payload : GenerateTextDto) (c : Normalized) (s : bool)
  (Hok : validateAndNormalizeParams payload = Return c) :
  validateAndNormalizeParams (as_request s c) = Return c.
Proof.
  destruct (validate_returns _ _ Hok)
    as (m & Hn & Hmt & Ht & Hp & Hm & Hpr & Hsy).
  destruct (validateNames_returns _ _ Hn) as (Hprov & _ & Hb & Hv & Hps).
  pose proof (valid_models_trimmed _ _ Hv) as Htrim.
  assert (Hnames : validateNames (as_request s c) = Return (n_model c)).
  { unfold validateNames. cbn [as_request provider model prompt system].
    rewrite Hp, Hm, Htrim, Hb, Hv. cbn [negb].
    assert (Hps' : blank (Some (n_prompt c)) && blank (n_system c) = false).
    { rewrite Hpr, Hsy.
      apply andb_false_iff in Hps. destruct Hps as [H | H];
        apply blank_false in H; destruct H as (v & -> & Hv');
        cbn [from_option option_map]; unfold or_else.
      - rewrite Hv'. rewrite blank_trim; [reflexivity|].
        unfold blank. destruct v; [discriminate Hv'|]. rewrite Hv'. reflexivity.
      - rewrite (blank_trim v), andb_false_r; [reflexivity|].
        unfold blank. destruct v; [discriminate Hv'|]. rewrite Hv'. reflexivity. }
    rewrite Hps'.
    destruct (providers (provider payload)); [reflexivity | reflexivity|].
    contradiction. }
  unfold validateAndNormalizeParams, bind. rewrite Hnames.
  cbn [as_request provider model prompt system temperature maxTokens].
  rewrite (normalizeMaxTokens_idem _ _ Hmt), (normalizeTemperature_idem _ _ Ht).
  f_equal. destruct c as [cp cm cpr cs ct cmt].
  cbn [n_providerId n_model n_prompt n_system n_temperature n_maxTokens
       from_option] in *.
  subst cp cm cpr cs. rewrite trim_idem, or_else_trim_idem.
  destruct (system payload) as [v|]; cbn [option_map];
    [rewrite trim_idem|]; reflexivity.
Qed.

Lemma normalize_idempotent_witness :
  validateAndNormalizeParams
    (as_request true
       (mkNormalized (lit "openai") (lit "gpt-4o") (lit "hi") None
          (Some (Finite 2)) None))
  = Return
      (mkNormalized (lit "openai") (lit "gpt-4o") (lit "hi") None
         (Some (Finite 2)) None).
Proof.
  apply (normalize_idempotent Samples.hotRequest). reflexivity.
Defined.

(** ** The error handler *)

Section Handler.

Implicit Types (p : ProviderId) (e : RawError).

(** Which branch runs, condition by condition. *)
Lemma handler_first_match p e :
  (isParameterError e = true -> category_of p e = BadRequest)
  /\ (isParameterError e = false -> isBalanceError e = true ->
      category_of p e = InsufficientBalance)
  /\ (isParameterError e = false -> isBalanceError e = false ->
      isRateLimitError e = true -> category_of p e = RateLimited)
  /\ (isParameterError e = false -> isBalanceError e = false ->
      isRateLimitError e = false -> isPermissionError e = true ->
      category_of p e =
        if includes (errorMessage e) (lit "leaked") then ForbiddenLeaked
        else ForbiddenOther)
  /\ (isParameterError e = false -> isBalanceError e = false ->
      isRateLimitError e = false -> isPermissionError e = false ->
      isAuthError e = true -> category_of p e = Unauthorized)
  /\ (isParameterError e = false -> isBalanceError e = false ->
      isRateLimitError e = false -> isPermissionError e = false ->
      isAuthError e = false -> category_of p e = Internal).
Proof.
  unfold category_of, handleError.
  repeat split; intros; repeat match goal with H : _ = _ |- _ => rewrite H end;
    try reflexivity.
  destruct (includes (errorMessage e) (lit "leaked")); reflexivity.
Qed.

Lemma unauthorized_means_no_permission_error p e :
  category_of p e = Unauthorized -> isPermissionError e = false.
Proof.
  unfold category_of, handleError.
  destruct (isParameterError e); [discriminate|].
  destruct (isBalanceError e); [discriminate|].
  destruct (isRateLimitError e); [discriminate|].
  destruct (isPermissionError e); [|reflexivity].
  destruct (includes (errorMessage e) (lit "leaked")); discriminate.
Qed.

Lemma rate_limited_thrown p e :
  category_of p e = RateLimited ->
  thrown p e = BadRequestException (rateLimitMessage (id_of p) e).
Proof.
  unfold category_of, thrown, handleError.
  destruct (isParameterError e); [discriminate|].
  destruct (isBalanceError e); [discriminate|].
  destruct (isRateLimitError e); [reflexivity|].
  destruct (isPermissionError e);
    [destruct (includes (errorMessage e) (lit "leaked")); discriminate|].
  destruct (isAuthError e); discriminate.
Qed.

Lemma envVarName_of_id p : envVarName (id_of p) = envKey p.
Proof. destruct p; vm_compute; reflexivity. Qed.

End Handler.

(** C1, as the handler has it. For every raw upstream error that satisfies
    the 403 condition and none of the three conditions tested before it
    (parameter error, 402 or balance, 429 or rate limit), the handler takes
    the Forbidden branch, whether or not the 401 condition holds too:
    Forbidden-Leaked when the text the branch inspects (the provider's
    nested message, else the error's message) contains "leaked",
    Forbidden-Other otherwise, and the message names the provider's
    credential variable. No error that satisfies the 403 condition is
    classified Unauthorized. The conditions are tried in the order parameter
    error, 402, 429, 403, 401, and the first that holds decides; when none
    holds the category is Internal. *)
Theorem forbidden_before_unauthorized (p : ProviderId) (e : RawError) :
  (isPermissionError e = true -> category_of p e <> Unauthorized)
  /\ (isPermissionError e = true ->
      isParameterError e = false -> isBalanceError e = false ->
      isRateLimitError e = false ->
      category_of p e =
        (if includes (errorMessage e) (lit "leaked") then ForbiddenLeaked
         else ForbiddenOther)
      /\ exists msg, thrown p e = BadRequestException msg
                     /\ includes msg (envKey p) = true)
  /\ (isParameterError e = true -> category_of p e = BadRequest)
  /\ (isParameterError e = false -> isBalanceError e = true ->
      category_of p e = InsufficientBalance)
  /\ (isParameterError e = false -> isBalanceError e = false ->
      isRateLimitError e = true -> category_of p e = RateLimited)
  /\ (isParameterError e = false -> isBalanceError e = false ->
      isRateLimitError e = false -> isPermissionError e = false ->
      isAuthError e = true -> category_of p e = Unauthorized)
  /\ (isParameterError e = false -> isBalanceError e = false ->
      isRateLimitError e = false -> isPermissionError e = false ->
      isAuthError e = false -> category_of p e = Internal).
Proof.
  destruct (handler_first_match p e) as (H1 & H2 & H3 & H4 & H5 & H6).
  split.
  { intros H403 Hcat.
    rewrite (unauthorized_means_no_permission_error p e Hcat) in H403.
    discriminate. }
  split.
  { intros H403 Hpar Hbal Hrate. split; [auto|].
    unfold thrown, handleError. rewrite Hpar, Hbal, Hrate, H403.
    rewrite envVarName_of_id.
    destruct (includes (errorMessage e) (lit "leaked"));
      eexists; (split; [reflexivity|]); cbn [snd].
    - apply includes_app_r, includes_app_r, includes_app_r, includes_prefix.
    - apply includes_app_r, includes_prefix. }
  auto 10.
Qed.

Lemma forbidden_before_unauthorized_witness :
  isPermissionError Samples.invalidKey403 = true
  /\ isAuthError Samples.invalidKey403 = true
  /\ category_of openai Samples.invalidKey403 = ForbiddenOther.
Proof.
  split; [reflexivity|]. split; [reflexivity|].
  destruct (forbidden_before_unauthorized openai Samples.invalidKey403)
    as (_ & H & _).
  destruct H as [H _]; [reflexivity .. | exact H].
Defined.

(** C1 as worded fails: this error satisfies the 403 condition (status 403)
    and the 401 condition (its message contains "Invalid" and "API key"),
    and the handler classifies it as a parameter error, because its message
    also contains "Invalid argument". *)
Lemma forbidden_needs_earlier_conditions_false :
  isPermissionError Samples.invalidArgument403 = true
  /\ isAuthError Samples.invalidArgument403 = true
  /\ category_of openai Samples.invalidArgument403 = BadRequest
  /\ category_of openai Samples.invalidArgument403 <> ForbiddenLeaked
  /\ category_of openai Samples.invalidArgument403 <> ForbiddenOther.
Proof. repeat split; try reflexivity; discriminate. Qed.

(** The Forbidden branch looks for "leaked" in the provider's nested
    message when there is one: a leak reported only in the error's own
    message is then classified Forbidden-Other. *)
Example masked_leak_is_forbidden_other :
  messageIncludes Samples.maskedLeak403 (lit "leaked") = true
  /\ category_of gemini Samples.maskedLeak403 = ForbiddenOther.
Proof. split; vm_compute; reflexivity. Qed.

(** A provider name that the table only inherits passes the provider check
    and fails the model check, with an empty list of models. *)
Example inherited_provider_name :
  validateAndNormalizeParams
    (mkDto (lit "constructor") (Some (lit "gpt-4o")) (Some (lit "hi")) None
       None None false)
  = Throw (BadRequestException
             (wrongModelMessage (lit "gpt-4o") (lit "constructor"))).
Proof. vm_compute. reflexivity. Qed.

(** ** The retry hint *)

Section RetryHint.

Lemma span_Forall (f : N -> bool) (s : jsstring) :
  Forall (fun c => f c = true) (fst (span f s)).
Proof.
  induction s as [|c r IH]; [constructor|]. simpl.
  destruct (f c) eqn:E; [|constructor].
  destruct (span f r). constructor; assumption.
Qed.

Lemma digitsValue_nonneg (ds : jsstring) :
  Forall (fun c => isDigit c = true) ds -> 0 <= digitsValue ds.
Proof.
  unfold digitsValue. intros H.
  assert (Hacc : forall acc, 0 <= acc ->
            0 <= fold_left (fun a d => 10 * a + (Z.of_N d - 48)) ds acc).
  { induction H as [|c r Hc _ IH]; intros acc Hacc; [exact Hacc|].
    simpl. apply IH. unfold isDigit in Hc.
    apply andb_true_iff in Hc. destruct Hc as [Hc _].
    apply N.leb_le in Hc. lia. }
  apply Hacc. lia.
Qed.

Lemma parseFloat_nonneg (s : jsstring) (q : Q) :
  parseFloat s = Finite q -> (0 <= q)%Q.
Proof.
  unfold parseFloat.
  pose proof (span_Forall isDigit s) as Hint.
  destruct (span isDigit s) as [intPart rest]. simpl in Hint.
  set (fracPart := match rest with
                   | 46%N :: r => fst (span isDigit r)
                   | _ => []
                   end).
  assert (Hfrac : Forall (fun c => isDigit c = true) fracPart).
  { subst fracPart. destruct rest as [|c r]; [constructor|].
    destruct c as [|c]; [constructor|].
    do 6 (destruct c as [c|c|]; try constructor).
    apply span_Forall. }
  pose proof (digitsValue_nonneg (intPart ++ fracPart)
                (Forall_app_2 _ _ _ Hint Hfrac)) as Hv.
  destruct (intPart ++ fracPart) eqn:E; [discriminate|].
  intros H; inversion H; subst. unfold Qle; simpl. lia.
Qed.

Lemma parseFloat_not_infinite (s : jsstring) (b : bool) :
  parseFloat s <> Infinity b.
Proof.
  unfold parseFloat. destruct (span isDigit s) as [intPart rest].
  destruct (intPart ++ _); discriminate.
Qed.

Lemma ceiling_nonneg (q : Q) : (0 <= q)%Q -> 0 <= Qceiling q.
Proof.
  intros H. change 0 with (Qceiling 0). apply Qceiling_resp_le. exact H.
Qed.

Lemma floor_inject (z : Z) : Qfloor (inject_Z z) = z.
Proof. unfold Qfloor, inject_Z. apply Z.div_1_r. Qed.

Lemma truthy_of_Z (z : Z) : JsNumber.truthy (of_Z z) = negb (z =? 0).
Proof.
  unfold JsNumber.truthy, of_Z, Qeq_bool, inject_Z. simpl.
  rewrite Z.mul_1_r. destruct z; reflexivity.
Qed.

(** The base of the 429 message, before any hint. *)
Lemma rateLimitMessage_plain (p : ProviderId) (e : RawError) :
  delayTruthy (retryDelay (errorMessage e)) = false ->
  includes (rateLimitMessage (id_of p) e) (lit "建议等待") = false.
Proof.
  intros H. unfold rateLimitMessage. rewrite H.
  destruct p;
    [change (JsString.eqb (id_of openai) (lit "gemini")) with false;
     change (JsString.eqb (id_of openai) (lit "deepseek")) with false
    |change (JsString.eqb (id_of deepseek) (lit "gemini")) with false;
     change (JsString.eqb (id_of deepseek) (lit "deepseek")) with true
    |change (JsString.eqb (id_of gemini) (lit "gemini")) with true];
    cbv iota zeta;
    try destruct (includes (errorMessage e) (lit "gemini-3-pro"));
    vm_compute; reflexivity.
Qed.

Lemma hint_after_line (m hint t tail : jsstring) :
  m ++ nl ++ hint ++ t ++ tail = (m ++ nl) ++ hint ++ t ++ tail.
Proof. rewrite <- app_assoc. reflexivity. Qed.

Lemma hint_after_item (m item hint t tail : jsstring) :
  m ++ nl ++ (item ++ hint) ++ t ++ tail
  = (m ++ nl ++ item) ++ hint ++ t ++ tail.
Proof. rewrite <- !app_assoc. reflexivity. Qed.

Lemma rateLimitMessage_hint (p : ProviderId) (e : RawError) :
  delayTruthy (retryDelay (errorMessage e)) = true ->
  exists before,
    rateLimitMessage (id_of p) e =
      before ++ lit "建议等待 " ++ delayText (retryDelay (errorMessage e))
        ++ lit " 秒后重试".
Proof.
  intros H. unfold rateLimitMessage. rewrite H.
  generalize (delayText (retryDelay (errorMessage e))) as t. intros t.
  assert (E4 : lit "4. 建议等待 " = lit "4. " ++ lit "建议等待 ")
    by (vm_compute; reflexivity).
  destruct p;
    [change (JsString.eqb (id_of openai) (lit "gemini")) with false;
     change (JsString.eqb (id_of openai) (lit "deepseek")) with false
    |change (JsString.eqb (id_of deepseek) (lit "gemini")) with false;
     change (JsString.eqb (id_of deepseek) (lit "deepseek")) with true
    |change (JsString.eqb (id_of gemini) (lit "gemini")) with true];
    cbv iota zeta.
  - eexists. apply hint_after_line.
  - eexists. apply hint_after_line.
  - rewrite E4. eexists. apply hint_after_item.
Qed.
Lemma span_all (f : N -> bool) (n rest : jsstring) (c : N) :
  Forall (fun x => f x = true) n -> f c = false ->
  span f (n ++ c :: rest) = (n, c :: rest).
Proof.
  intros Hn Hc. induction Hn as [|x n Hx _ IH]; simpl.
  - rewrite Hc. reflexivity.
  - rewrite Hx, IH. reflexivity.
Qed.

Lemma matchIgnoreCase_same (pat rest : jsstring) :
  matchIgnoreCase pat (pat ++ rest) = Some rest.
Proof.
  induction pat as [|a pat IH]; [destruct rest; reflexivity|].
  simpl. rewrite N.eqb_refl. exact IH.
Qed.

(** The expression accepts the phrase with a run of digits and dots, and
    captures the run. *)
Lemma matchHere_phrase (n rest : jsstring) :
  n <> [] -> Forall (fun x => isDigitOrDot x = true) n ->
  matchHere (lit "Please retry in " ++ n ++ lit "s" ++ rest) = Some n.
Proof.
  intros Hne Hn. unfold matchHere. rewrite matchIgnoreCase_same.
  change (lit "s" ++ rest) with (115%N :: rest).
  rewrite (span_all isDigitOrDot n rest 115 Hn eq_refl).
  destruct n; [contradiction | reflexivity].
Qed.

Lemma retryDelayMatch_unfold (text : jsstring) :
  retryDelayMatch text =
    match matchHere text with
    | Some captured => Some captured
    | None =>
        match text with
        | [] => None
        | _ :: r => retryDelayMatch r
        end
    end.
Proof. destruct text; reflexivity. Qed.

Lemma retryDelayMatch_head (text captured : jsstring) :
  matchHere text = Some captured -> retryDelayMatch text = Some captured.
Proof. intros H. rewrite retryDelayMatch_unfold, H. reflexivity. Qed.

Lemma retryDelayMatch_some (pre text : jsstring) :
  matchHere text <> None -> retryDelayMatch (pre ++ text) <> None.
Proof.
  intros H. induction pre as [|c pre IH].
  - destruct (matchHere text) as [captured|] eqn:E; [|congruence].
    simpl app. rewrite (retryDelayMatch_head _ _ E). discriminate.
  - rewrite retryDelayMatch_unfold.
    destruct (matchHere ((c :: pre) ++ text)); [discriminate | exact IH].
Qed.

Lemma matchIgnoreCase_nil (s : jsstring) : matchIgnoreCase [] s = Some s.
Proof. destruct s; reflexivity. Qed.

(** What the literal part of the expression accepts under the [i] flag. *)
Lemma matchIgnoreCase_spec (pat s rest : jsstring) :
  matchIgnoreCase pat s = Some rest <->
  exists phrase,
    s = phrase ++ rest /\ map toUpperAscii phrase = map toUpperAscii pat.
Proof.
  revert s. induction pat as [|a pat IH]; intros s.
  - rewrite matchIgnoreCase_nil. split.
    + intros H. inversion H. exists []. split; reflexivity.
    + intros (phrase & -> & Hp).
      destruct phrase; [reflexivity | discriminate Hp].
  - destruct s as [|b s]; cbn [matchIgnoreCase].
    + split; [discriminate|]. intros (phrase & Hs & Hp).
      destruct phrase; [discriminate Hp | discriminate Hs].
    + destruct (N.eqb_spec (toUpperAscii a) (toUpperAscii b)) as [E|E].
      * rewrite IH. split.
        -- intros (phrase & -> & Hp). exists (b :: phrase).
           split; [reflexivity|]. cbn [map]. rewrite Hp, E. reflexivity.
        -- intros (phrase & Hs & Hp).
           destruct phrase as [|c phrase]; [discriminate Hp|].
           cbn [app map] in Hs, Hp. injection Hs as <- ->.
           injection Hp as _ Hp. exists phrase.
           split; [reflexivity | exact Hp].
      * split; [discriminate|]. intros (phrase & Hs & Hp).
        destruct phrase as [|c phrase]; [discriminate Hp|].
        cbn [app map] in Hs, Hp. injection Hs as <- ->.
        injection Hp as Hc _. congruence.
Qed.

Lemma span_app (f : N -> bool) (s : jsstring) :
  fst (span f s) ++ snd (span f s) = s.
Proof.
  induction s as [|c r IH]; [reflexivity|]. simpl.
  destruct (f c); [|reflexivity].
  destruct (span f r). simpl in *. rewrite IH. reflexivity.
Qed.

Lemma s_not_digit (c : N) : toUpperAscii c = 83%N -> isDigitOrDot c = false.
Proof.
  unfold toUpperAscii, isDigitOrDot, isDigit. intros H.
  destruct (N.leb_spec 97 c), (N.leb_spec c 122); simpl in H;
    repeat match goal with
           | |- context [(?a <=? ?b)%N] => destruct (N.leb_spec a b)
           | |- context [(?a =? ?b)%N] => destruct (N.eqb_spec a b)
           end; simpl; try reflexivity; lia.
Qed.

(** The expression matches at the head of a text exactly when the text
    starts with the phrase, and then captures its run. *)
Lemma matchHere_phraseAt (n rest s : jsstring) :
  phraseAt [] n rest s -> matchHere s = Some n.
Proof.
  intros (phrase & c & -> & Hp & Hne & Hn & Hc). unfold matchHere.
  cbn [app].
  rewrite (proj2 (matchIgnoreCase_spec _ (phrase ++ n ++ c :: rest)
                    (n ++ c :: rest)))
    by (exists phrase; split; [reflexivity | exact Hp]).
  rewrite (span_all isDigitOrDot n rest c Hn (s_not_digit c Hc)).
  destruct n; [contradiction|]. rewrite Hc. reflexivity.
Qed.

Lemma matchHere_inv (s captured : jsstring) :
  matchHere s = Some captured -> exists rest, phraseAt [] captured rest s.
Proof.
  unfold matchHere.
  destruct (matchIgnoreCase (lit "Please retry in ") s) as [after|] eqn:Em;
    [|discriminate].
  apply matchIgnoreCase_spec in Em. destruct Em as (phrase & -> & Hp).
  pose proof (span_app isDigitOrDot after) as Happ.
  pose proof (span_Forall isDigitOrDot after) as Hall.
  destruct (span isDigitOrDot after) as [n tail]. cbn [fst snd] in Happ, Hall.
  destruct n as [|d n]; [discriminate|].
  destruct tail as [|c tail]; [discriminate|].
  destruct (N.eqb_spec (toUpperAscii c) 83) as [E|E]; [|discriminate].
  intros H. inversion H; subst captured. exists tail, phrase, c.
  rewrite <- Happ. split; [reflexivity|]. split; [exact Hp|].
  split; [discriminate|]. split; [exact Hall | exact E].
Qed.

(** The expression matches a text exactly when the text holds the phrase
    somewhere, and what it captures is the run of such a phrase. *)
Lemma retryDelayMatch_inv (text captured : jsstring) :
  retryDelayMatch text = Some captured ->
  exists pre rest,
    phraseAt pre captured rest text
    /\ forall pre' n' rest',
         phraseAt pre' n' rest' text -> (length pre <= length pre')%nat.
Proof.
  induction text as [|c r IH]; rewrite retryDelayMatch_unfold;
    destruct (matchHere _) as [found|] eqn:E.
  - intros H. inversion H; subst.
    destruct (matchHere_inv _ _ E) as (rest & Hph).
    exists [], rest. split; [exact Hph | intros; apply Nat.le_0_l].
  - discriminate.
  - intros H. inversion H; subst.
    destruct (matchHere_inv _ _ E) as (rest & Hph).
    exists [], rest. split; [exact Hph | intros; apply Nat.le_0_l].
  - intros H.
    destruct (IH H) as (pre & rest & (phrase & z & -> & Hrest) & Hleft).
    exists (c :: pre), rest. split.
    + exists phrase, z. split; [reflexivity | exact Hrest].
    + intros pre' n' rest' Hph'. destruct pre' as [|c' pre'].
      * rewrite (matchHere_phraseAt n' rest' _ Hph') in E. discriminate E.
      * destruct Hph' as (phrase' & z' & Ht & Hrest').
        cbn [app] in Ht. injection Ht as <- Ht.
        cbn [length]. apply le_n_S. apply (Hleft pre' n' rest').
        exists phrase', z'. split; [exact Ht | exact Hrest'].
Qed.

Lemma retryDelayMatch_phraseAt (pre n rest text : jsstring) :
  phraseAt pre n rest text -> retryDelayMatch text <> None.
Proof.
  intros (phrase & c & -> & Hrest).
  apply retryDelayMatch_some.
  rewrite (matchHere_phraseAt n rest (phrase ++ n ++ c :: rest));
    [discriminate|].
  exists phrase, c. split; [reflexivity | exact Hrest].
Qed.

Lemma no_retry_field (msg : jsstring) :
  getResponse (BadRequestException msg) !! "retryAfterSeconds" = None.
Proof. reflexivity. Qed.

End RetryHint.

(** C8, as the handler has it. For every upstream error the handler
    classifies as RateLimited, the exception it throws is a BadRequest that
    carries a message and no [retryAfterSeconds] field. The delay is read
    from the text the branch inspects (the provider's nested message, else
    the error's message) with the expression "Please retry in", a run of
    digits and dots, "s", letter case ignored; a text that holds the phrase
    matches, and a text that starts with it yields its run of digits. The
    expression matches exactly the texts that hold the phrase in some
    letter case, and the run it captures is the run of the leftmost such
    phrase in the text. When the expression does not match, the message holds no advice
    to wait. When it matches and the captured run has at most 15
    characters: if the run parses to a number whose ceiling is not zero,
    the message ends with the advice to wait that many seconds; if the run
    does not parse, or the ceiling is zero, the message holds no such
    advice. Longer runs are left out: 15 characters is the range on which
    the rational value of [parseFloat] and the double of the program have
    the same ceiling, written the same way. *)
Theorem retry_delay_only_in_message (p : ProviderId) (e : RawError)
  (Hrate : category_of p e = RateLimited) :
  exists msg,
    thrown p e = BadRequestException msg
    /\ getResponse (thrown p e) !! "retryAfterSeconds" = None
    /\ (forall pre n rest,
          n <> [] -> Forall (fun x => isDigitOrDot x = true) n ->
          errorMessage e = pre ++ lit "Please retry in " ++ n ++ lit "s" ++ rest ->
          retryDelayMatch (errorMessage e) <> None
          /\ (pre = [] -> retryDelayMatch (errorMessage e) = Some n))
    /\ (retryDelayMatch (errorMessage e) <> None <->
        exists pre n rest, phraseAt pre n rest (errorMessage e))
    /\ (forall captured,
          retryDelayMatch (errorMessage e) = Some captured ->
          exists pre rest,
            phraseAt pre captured rest (errorMessage e)
            /\ forall pre' n' rest',
                 phraseAt pre' n' rest' (errorMessage e) ->
                 (length pre <= length pre')%nat)
    /\ match retryDelayMatch (errorMessage e) with
       | None => includes msg (lit "建议等待") = false
       | Some captured =>
           (length captured <= 15)%nat ->
           match parseFloat captured with
           | Finite q =>
               if Qceiling q =? 0 then includes msg (lit "建议等待") = false
               else
                 exists before,
                   msg = before ++ lit "建议等待 "
                           ++ decimal (Z.to_N (Qceiling q)) ++ lit " 秒后重试"
           | _ => includes msg (lit "建议等待") = false
           end
       end.
Proof.
  exists (rateLimitMessage (id_of p) e).
  rewrite (rate_limited_thrown p e Hrate).
  split; [reflexivity|]. split; [apply no_retry_field|]. split.
  { intros pre n rest Hne Hn ->. split.
    - apply retryDelayMatch_some. rewrite (matchHere_phrase n rest Hne Hn).
      discriminate.
    - intros ->. apply retryDelayMatch_head, matchHere_phrase; assumption. }
  split.
  { split.
    - intros Hm.
      destruct (retryDelayMatch (errorMessage e)) as [captured|] eqn:Em;
        [|contradiction].
      destruct (retryDelayMatch_inv _ _ Em) as (pre & rest & Hph & _).
      exists pre, captured, rest. exact Hph.
    - intros (pre & n & rest & Hph).
      apply (retryDelayMatch_phraseAt pre n rest _ Hph). }
  split; [intros captured Em; apply (retryDelayMatch_inv _ _ Em)|].
  pose proof (rateLimitMessage_plain p e) as Hplain.
  pose proof (rateLimitMessage_hint p e) as Hhint.
  unfold retryDelay in Hplain, Hhint.
  destruct (retryDelayMatch (errorMessage e)) as [captured|];
    [|apply Hplain; reflexivity].
  intros _.
  destruct (parseFloat captured) as [|b|q] eqn:Epf;
    [apply Hplain; reflexivity
    |destruct (parseFloat_not_infinite captured b Epf) |].
  pose proof (ceiling_nonneg q (parseFloat_nonneg captured q Epf)) as Hpos.
  cbn [Math_ceil delayTruthy delayText Number_toString] in Hplain, Hhint.
  change (Finite (inject_Z (Qceiling q))) with (of_Z (Qceiling q))
    in Hplain, Hhint.
  rewrite truthy_of_Z in Hplain, Hhint.
  rewrite floor_inject in Hhint.
  destruct (Z.eqb_spec (Qceiling q) 0) as [E|E];
    [apply Hplain; reflexivity|].
  destruct (Z.ltb_spec (Qceiling q) 0); [lia|].
  apply Hhint. reflexivity.
Qed.

Lemma retry_delay_only_in_message_witness :
  category_of gemini Samples.quota429 = RateLimited
  /\ exists msg,
       thrown gemini Samples.quota429 = BadRequestException msg
       /\ getResponse (thrown gemini Samples.quota429) !! "retryAfterSeconds"
          = None
       /\ exists before,
            msg = before ++ lit "建议等待 " ++ decimal 38 ++ lit " 秒后重试".
Proof.
  split; [vm_compute; reflexivity|].
  destruct (retry_delay_only_in_message gemini Samples.quota429)
    as (msg & H1 & H2 & _ & _ & _ & H3); [vm_compute; reflexivity|].
  exists msg. split; [exact H1|]. split; [exact H2|].
  replace (retryDelayMatch (errorMessage Samples.quota429))
    with (Some (lit "37.5")) in H3 by (vm_compute; reflexivity).
  cbv iota in H3. specialize (H3 ltac:(vm_compute; lia)).
  replace (parseFloat (lit "37.5")) with (Finite (375 # 10)) in H3
    by (vm_compute; reflexivity).
  cbv iota in H3.
  replace (Qceiling (375 # 10)) with 38 in H3 by (vm_compute; reflexivity).
  exact H3.
Defined.

(** C8 as worded fails: this 429 error says "Please retry in 37.5s", the
    handler reads the delay 38 from it, and the exception it throws has no
    [retryAfterSeconds] field; the delay only appears inside the message. *)
Lemma retry_delay_structured_field_false :
  category_of gemini Samples.quota429 = RateLimited
  /\ retryDelay (errorMessage Samples.quota429) = Some (of_Z 38)
  /\ getResponse (thrown gemini Samples.quota429) !! "retryAfterSeconds" = None
  /\ includes (message_of (thrown gemini Samples.quota429))
       (lit "建议等待 38 秒后重试") = true.
Proof. repeat split; vm_compute; reflexivity. Qed.

(** ** Credentials *)

Lemma normalized_provider (payload : GenerateTextDto) (c : Normalized) :
  validateAndNormalizeParams payload = Return c ->
  exists p, n_providerId c = id_of p /\ providers (n_providerId c) = Entry p.
Proof.
  intros H. destruct (validate_returns _ _ H) as (m & Hn & _ & _ & Hp & _).
  destruct (validateNames_returns _ _ Hn) as (_ & _ & _ & Hv & _).
  rewrite Hp. unfold validateModel, getModelsByProvider in Hv.
  destruct (JsString.eqb (provider payload) (lit "openai")) eqn:E1;
    [apply eqb_true in E1; exists openai; rewrite E1; split; reflexivity|].
  destruct (JsString.eqb (provider payload) (lit "deepseek")) eqn:E2;
    [apply eqb_true in E2; exists deepseek; rewrite E2; split; reflexivity|].
  destruct (JsString.eqb (provider payload) (lit "gemini")) eqn:E3;
    [apply eqb_true in E3; exists gemini; rewrite E3; split; reflexivity|].
  discriminate Hv.
Qed.

Lemma id_of_injective (p p' : ProviderId) : id_of p = id_of p' -> p = p'.
Proof. destruct p, p'; intros H; try reflexivity; vm_compute in H; discriminate H. Qed.

Lemma missingKeyMessage_cites_key (p : ProviderId) :
  includes (missingKeyMessage p) (envKey p) = true.
Proof. destruct p; vm_compute; reflexivity. Qed.

Lemma create_without_key (env : Env) (p : ProviderId) :
  opt_truthy (env (envKey p)) = false ->
  create env p = Throw (InternalServerErrorException (missingKeyMessage p)).
Proof.
  unfold create, opt_truthy. destruct (env (envKey p)) as [key|];
    [intros ->|]; reflexivity.
Qed.

(** C6. For a request that passes normalisation and selects a provider
    whose credential variable is unset or empty, [generateText] and
    [generateTextStream] both fail with an Internal error, not a BadRequest,
    and its message cites the name of the missing variable. The failure
    arises when the SDK instance is created, after validation: a request
    that fails normalisation fails with the normaliser's BadRequest whatever
    the environment holds. *)
Theorem missing_credential_is_internal
  (env : Env) (sdk : gmap string ParamValue -> Settled)
  (payload : GenerateTextDto) (p : ProviderId)
  (Hp : provider payload = id_of p)
  (Habsent : opt_truthy (env (envKey p)) = false) :
  (forall c, validateAndNormalizeParams payload = Return c ->
     generateText env sdk payload =
       Throw (InternalServerErrorException (missingKeyMessage p))
     /\ generateTextStream env payload =
          Throw (InternalServerErrorException (missingKeyMessage p)))
  /\ includes (missingKeyMessage p) (envKey p) = true
  /\ (forall e, validateAndNormalizeParams payload = Throw e ->
        generateText env sdk payload = Throw e
        /\ generateTextStream env payload = Throw e
        /\ exists msg, e = BadRequestException msg).
Proof.
  split.
  { intros c Hc.
    destruct (normalized_provider _ _ Hc) as (p' & Hid & Hentry).
    destruct (validate_returns _ _ Hc) as (_ & _ & _ & _ & Hprov & _).
    assert (p' = p) as -> by (apply id_of_injective; congruence).
    unfold generateText, generateTextStream, bind.
    rewrite Hc, Hentry, (create_without_key env p Habsent).
    split; reflexivity. }
  split; [apply missingKeyMessage_cites_key|].
  intros e He. unfold generateText, generateTextStream, bind. rewrite He.
  split; [reflexivity|]. split; [reflexivity|].
  exact (validate_throws _ _ He).
Qed.

Lemma missing_credential_is_internal_witness :
  generateText Samples.emptyEnv (fun _ => Rejected Samples.rateLimit429)
    Samples.deepseekRequest
  = Throw (InternalServerErrorException (missingKeyMessage deepseek))
  /\ generateTextStream Samples.emptyEnv Samples.deepseekRequest
     = Throw (InternalServerErrorException (missingKeyMessage deepseek)).
Proof.
  destruct (missing_credential_is_internal Samples.emptyEnv
              (fun _ => Rejected Samples.rateLimit429)
              Samples.deepseekRequest deepseek eq_refl eq_refl) as (H & _).
  apply (H (mkNormalized (lit "deepseek") (lit "deepseek-chat") (lit "hi")
              None None None)).
  vm_compute. reflexivity.
Defined.

(** ** Request parameters *)

(** C10, on the code. The two executors build the same parameter object
    but for the token limit: with the limit's key removed the objects are
    equal, [generateText] stores the limit under [maxOutputTokens] and
    [generateTextStream] under [maxTokens], and neither object has the
    other's key. So the objects differ whenever [maxTokens] is defined. *)
Theorem token_limit_keys_differ (sdk : Provider) (c : Normalized) :
  delete "maxOutputTokens" (syncRequestParams sdk c)
    = delete "maxTokens" (streamRequestParams sdk c)
  /\ syncRequestParams sdk c !! "maxOutputTokens" = Num <$> n_maxTokens c
  /\ streamRequestParams sdk c !! "maxTokens" = Num <$> n_maxTokens c
  /\ syncRequestParams sdk c !! "maxTokens" = None
  /\ streamRequestParams sdk c !! "maxOutputTokens" = None.
Proof.
  unfold syncRequestParams, streamRequestParams.
  destruct (n_system c) as [s|]; [destruct (JsString.truthy s)|];
    destruct (n_temperature c) as [t|];
    destruct (n_maxTokens c) as [m|];
    (split; [rewrite ?delete_insert_eq;
             rewrite !delete_id by (simplify_map_eq; reflexivity);
             reflexivity|]);
    repeat split; simplify_map_eq; reflexivity.
Qed.

(** The same at a request with [maxTokens = 100], by evaluation: the limit
    sits under two different keys, and the two objects are not equal. *)
Example token_limit_at_100 :
  syncRequestParams Samples.openaiSdk Samples.limited !! "maxOutputTokens"
    = Some (Num (of_Z 100))
  /\ streamRequestParams Samples.openaiSdk Samples.limited !! "maxOutputTokens"
     = None
  /\ streamRequestParams Samples.openaiSdk Samples.limited !! "maxTokens"
     = Some (Num (of_Z 100))
  /\ syncRequestParams Samples.openaiSdk Samples.limited
     <> streamRequestParams Samples.openaiSdk Samples.limited.
Proof.
  repeat split; try (vm_compute; reflexivity).
  intros E. apply (f_equal (fun m => m !! "maxTokens")) in E.
  vm_compute in E. discriminate E.
Qed.

(** ** The streaming executor *)

Section Streaming.

Implicit Types (s : Subscriber) (timeline : list Happening).

(** A closed subscriber is a fixed point of the executor: whatever the
    upstream still does, nothing is recorded. *)
Lemma forAwait_closed timeline s :
  closed s = true -> forAwait timeline s = s.
Proof.
  intros Hc. revert s Hc.
  induction timeline as [|h rest IH]; intros s Hc.
  - unfold forAwait, afterLoop. rewrite Hc. reflexivity.
  - destruct h as [chunk|e|]; simpl.
    + rewrite Hc. unfold afterLoop. rewrite Hc. reflexivity.
    + unfold catchBlock. rewrite Hc. reflexivity.
    + assert (Hu : unsubscribe s = s) by (unfold unsubscribe; rewrite Hc; reflexivity).
      rewrite Hu. apply IH, Hc.
Qed.

(** The shape of a run from an open subscriber: notifications only, with
    the unsubscription, if any, at the very end and no end marker before
    it. *)
Lemma forAwait_shape timeline s :
  closed s = false ->
  exists ds,
    (moments (forAwait timeline s) = moments s ++ map Delivered ds
     \/ (moments (forAwait timeline s)
           = moments s ++ map Delivered ds ++ [Unsubscribed]
         /\ ~ In (next (Literal (lit "[DONE]"))) ds)).
Proof.
  revert s. induction timeline as [|h rest IH]; intros s Ho.
  - exists [next (Literal (lit "[DONE]")); complete]. left.
    unfold forAwait, afterLoop, sub_complete, sub_next. rewrite Ho. simpl.
    rewrite <- app_assoc. reflexivity.
  - destruct h as [chunk|e|]; simpl.
    + rewrite Ho.
      destruct (IH (sub_next (JSON_stringify "content" chunk) s))
        as (ds & Hds); [unfold sub_next; rewrite Ho; reflexivity|].
      exists (next (JSON_stringify "content" chunk) :: ds).
      unfold sub_next in Hds |- *. rewrite Ho in Hds |- *.
      cbn [moments map] in Hds |- *.
      destruct Hds as [Hds | [Hds Hno]];
        rewrite <- app_assoc in Hds; [left; exact Hds | right].
      split; [exact Hds|]. intros [Hin | Hin]; [discriminate Hin | auto].
    + exists [next (JSON_stringify "error"
                 (opt_or_else (e_message e) (lit "流式生成失败"))); error e].
      left. unfold catchBlock, sub_error, sub_next. rewrite Ho. simpl.
      rewrite <- app_assoc. reflexivity.
    + exists []. right. rewrite forAwait_closed;
        unfold unsubscribe; rewrite Ho; [|reflexivity].
      simpl. split; [reflexivity | tauto].
Qed.

Lemma Unsubscribed_not_delivered (ds : list Signal) :
  ~ In Unsubscribed (map Delivered ds).
Proof. rewrite in_map_iff. intros (x & Hx & _). discriminate Hx. Qed.

(** Where an unsubscription can sit in a list of that shape. *)
Lemma split_at_unsubscribed (ds : list Signal) (tail pre post : list Moment) :
  map Delivered ds ++ tail = pre ++ Unsubscribed :: post ->
  exists pre', pre = map Delivered ds ++ pre' /\ tail = pre' ++ Unsubscribed :: post.
Proof.
  revert pre. induction ds as [|d ds IH]; intros pre H; simpl in H.
  - exists pre. split; [reflexivity | exact H].
  - destruct pre as [|m pre]; simpl in H; [discriminate H|].
    inversion H; subst. destruct (IH pre H2) as (pre' & -> & Ht).
    exists pre'. split; [reflexivity | exact Ht].
Qed.

(** What happens before the failure when nobody unsubscribes. *)
Lemma forAwait_chunks (chunks : list jsstring) timeline s :
  closed s = false ->
  forAwait (map Chunk chunks ++ timeline) s =
    forAwait timeline
      (mkSubscriber false
         (moments s
            ++ map (fun chunk =>
                      Delivered (next (JSON_stringify "content" chunk)))
                 chunks)).
Proof.
  revert s. induction chunks as [|chunk chunks IH]; intros s Ho.
  - simpl. rewrite app_nil_r. destruct s as [cl ms]. simpl in Ho. subst cl.
    reflexivity.
  - simpl. rewrite Ho. rewrite IH by (unfold sub_next; rewrite Ho; reflexivity).
    unfold sub_next. rewrite Ho. simpl. rewrite <- app_assoc. reflexivity.
Qed.

End Streaming.

(** ** The steps of the executor *)

Section Steps.

Implicit Types (r : Run) (timeline : list Happening) (t l a b : list Step).

(** The stepwise executor drives the subscriber as [forAwait] does. *)
Lemma executor_subscriber timeline r :
  subscriber (executor timeline r) = forAwait timeline (subscriber r).
Proof.
  revert r. induction timeline as [|h rest IH]; intros r.
  - unfold executor, forAwait, afterLoopSteps, afterLoop.
    destruct (closed (subscriber r)); reflexivity.
  - destruct h as [chunk|e|]; cbn [executor forAwait].
    + destruct (closed (subscriber r)) eqn:Hc.
      * unfold afterLoopSteps, afterLoop. cbn [subscriber]. rewrite Hc.
        reflexivity.
      * rewrite IH. reflexivity.
    + unfold catchBlockSteps, catchBlock.
      destruct (closed (subscriber r)); reflexivity.
    + rewrite IH. reflexivity.
Qed.

(** From a closed subscriber the executor only tests and stops. *)
Lemma executor_closed_steps timeline r :
  closed (subscriber r) = true ->
  exists tail, steps (executor timeline r) = steps r ++ tail /\ stopped tail.
Proof.
  revert r. induction timeline as [|h rest IH]; intros r Hc.
  - exists [Tested true]. split; [|left; reflexivity].
    unfold executor, afterLoopSteps. rewrite Hc. reflexivity.
  - destruct h as [chunk|e|]; cbn [executor].
    + exists [Pulled chunk; Tested true; Broke; Tested true].
      split; [|right; left; exists chunk; reflexivity].
      rewrite Hc. unfold afterLoopSteps. cbn [subscriber steps].
      rewrite Hc. cbn [negb]. rewrite <- !app_assoc. reflexivity.
    + exists [Caught e; Tested true].
      split; [|right; right; exists e; reflexivity].
      unfold catchBlockSteps. rewrite Hc. reflexivity.
    + rewrite Hc.
      destruct (IH (mkRun (unsubscribe (subscriber r)) (steps r)))
        as (tail & Ht & Hs);
        [unfold unsubscribe; rewrite Hc; exact Hc|].
      exists tail. split; [exact Ht | exact Hs].
Qed.

Lemma stopped_no_Cancelled l : stopped l -> ~ In Cancelled l.
Proof.
  intros [-> | [[chunk ->] | [e ->]]] H; cbn [In] in H;
    repeat (destruct H as [H | H]; [discriminate H|]); exact H.
Qed.

(** Where an element that occurs once can sit. *)
Lemma split_unique (x : Step) l1 l2 a b :
  ~ In x l1 -> ~ In x l2 -> l1 ++ x :: l2 = a ++ x :: b -> b = l2.
Proof.
  revert a. induction l1 as [|h l1 IH]; intros a H1 H2 E.
  - destruct a as [|h' a]; cbn [app] in E.
    + inversion E. reflexivity.
    + inversion E; subst. exfalso. apply H2, in_elt.
  - destruct a as [|h' a]; cbn [app] in E.
    + inversion E; subst. exfalso. apply H1. left. reflexivity.
    + inversion E; subst. apply (IH a); [|exact H2|assumption].
      intros Hin. apply H1. right. exact Hin.
Qed.

Lemma preceded_app P y t l :
  preceded P y t -> preceded P y l -> preceded P y (t ++ l).
Proof.
  intros Ht Hl a x b E Hx. symmetry in E.
  apply app_eq_app in E. destruct E as (m & [[-> E] | [-> E]]).
  - destruct (Hl m x b E Hx) as (a' & ->).
    exists (t ++ a'). rewrite app_assoc. reflexivity.
  - destruct m as [|x' m]; cbn [app] in E.
    + destruct (Hl [] x b (eq_sym E) Hx) as (a' & Ha).
      destruct a'; discriminate Ha.
    + inversion E; subst. apply (Ht a x' m eq_refl Hx).
Qed.

Lemma followed_app P Q t l :
  followed P Q t -> followed P Q l -> followed P Q (t ++ l).
Proof.
  intros Ht Hl a x b E Hx. symmetry in E.
  apply app_eq_app in E. destruct E as (m & [[-> E] | [-> E]]).
  - apply (Hl m x b E Hx).
  - destruct m as [|x' m]; cbn [app] in E.
    + apply (Hl [] x b (eq_sym E) Hx).
    + inversion E; subst.
      destruct (Ht a x' m eq_refl Hx) as (y & b' & -> & Hy).
      exists y, (b' ++ l). split; [reflexivity | exact Hy].
Qed.

(** Concrete lists of steps are settled by looking at each place. *)
Ltac found :=
  first [discriminate
        |exists []; reflexivity
        |eexists [_]; reflexivity
        |eexists [_; _]; reflexivity
        |eexists [_; _; _]; reflexivity].

Ltac place E a :=
  destruct a as [|? a]; cbn [app] in E;
  [first [discriminate E | inversion E; subst; found]
  |first [discriminate E | injection E as ? E; subst]].

Ltac places E a := do 6 (try place E a).

Lemma fragments_content chunk :
  preceded isFragment (Tested false)
    [Pulled chunk; Tested false; Called (next (JSON_stringify "content" chunk))].
Proof. intros a x b E [d ->]. places E a. Qed.

Lemma fragments_done :
  preceded isFragment (Tested false)
    [Tested false; Called (next (Literal (lit "[DONE]"))); Called complete].
Proof. intros a x b E [d ->]. places E a. Qed.

Lemma fragments_error e msg :
  preceded isFragment (Tested false)
    [Caught e; Tested false; Called (next (JSON_stringify "error" msg));
     Called (error e)].
Proof. intros a x b E [d ->]. places E a. Qed.

Lemma fragments_none l :
  (forall d, ~ In (Called (next d)) l) -> preceded isFragment (Tested false) l.
Proof.
  intros H a x b E [d ->]. exfalso. apply (H d). rewrite E. apply in_elt.
Qed.

Lemma pulls_none l :
  (forall chunk, ~ In (Pulled chunk) l) -> followed isPulled isTested l.
Proof.
  intros H a x b E [chunk ->]. exfalso. apply (H chunk). rewrite E.
  apply in_elt.
Qed.

Lemma pulls_one chunk v l :
  (forall chunk', ~ In (Pulled chunk') l) ->
  followed isPulled isTested (Pulled chunk :: Tested v :: l).
Proof.
  intros H a x b E [chunk' ->].
  destruct a as [|z a]; cbn [app] in E; injection E as ? E; subst.
  - exists (Tested v), l. split; [reflexivity | exists v; reflexivity].
  - destruct a as [|z a]; cbn [app] in E; [discriminate E|].
    injection E as ? E; subst. exfalso. apply (H chunk'). apply in_elt.
Qed.

Lemma stopped_fragments l : stopped l -> preceded isFragment (Tested false) l.
Proof.
  intros Hs. apply fragments_none. intros d Hin.
  destruct Hs as [-> | [[chunk ->] | [e ->]]]; cbn [In] in Hin;
    repeat (destruct Hin as [Hin | Hin]; [discriminate Hin|]); exact Hin.
Qed.

Lemma stopped_pulls l : stopped l -> followed isPulled isTested l.
Proof.
  intros [-> | [[chunk ->] | [e ->]]].
  - apply pulls_none. intros c [H | []]. discriminate H.
  - apply pulls_one. intros c H. cbn [In] in H.
    repeat (destruct H as [H | H]; [discriminate H|]). exact H.
  - apply pulls_none. intros c H. cbn [In] in H.
    repeat (destruct H as [H | H]; [discriminate H|]). exact H.
Qed.

(** The steps of a run from an open subscriber: what was there, one block
    per chunk, and the block of the ending. *)
Lemma executor_open_steps timeline r :
  closed (subscriber r) = false ->
  exists l,
    steps (executor timeline r) = steps r ++ l
    /\ preceded isFragment (Tested false) l
    /\ followed isPulled isTested l
    /\ (forall a b, l = a ++ Cancelled :: b -> stopped b).
Proof.
  revert r. induction timeline as [|h rest IH]; intros r Ho.
  - exists [Tested false; Called (next (Literal (lit "[DONE]")));
            Called complete].
    split; [|split; [apply fragments_done|split]].
    + unfold executor, afterLoopSteps. rewrite Ho. cbn [negb steps].
      rewrite <- app_assoc. reflexivity.
    + apply pulls_none. intros c H. cbn [In] in H.
      repeat (destruct H as [H | H]; [discriminate H|]). exact H.
    + intros a b E. places E a.
  - destruct h as [chunk|e|]; cbn [executor].
    + rewrite Ho.
      destruct (IH (mkRun (sub_next (JSON_stringify "content" chunk)
                             (subscriber r))
                      ((steps r ++ [Pulled chunk; Tested false])
                         ++ [Called (next (JSON_stringify "content" chunk))])))
        as (l & Hl & Hg & Hf & Hc);
        [cbn [subscriber]; unfold sub_next; rewrite Ho; reflexivity|].
      exists ([Pulled chunk; Tested false;
               Called (next (JSON_stringify "content" chunk))] ++ l).
      split; [|split; [|split]].
      * rewrite Hl. cbn [steps]. rewrite <- !app_assoc. reflexivity.
      * apply preceded_app; [apply fragments_content | exact Hg].
      * apply (followed_app _ _ [_; _; _]); [|exact Hf].
        apply pulls_one. intros c [H | []]. discriminate H.
      * intros a b E. cbn [app] in E.
        do 3 (destruct a as [|? a]; cbn [app] in E;
              [discriminate E | injection E as <- E]).
        apply (Hc a b E).
    + exists [Caught e; Tested false;
              Called (next (JSON_stringify "error"
                              (opt_or_else (e_message e) (lit "流式生成失败"))));
              Called (error e)].
      split; [|split; [apply fragments_error|split]].
      * unfold catchBlockSteps. rewrite Ho. cbn [negb steps].
        rewrite <- app_assoc. reflexivity.
      * apply pulls_none. intros c H. cbn [In] in H.
        repeat (destruct H as [H | H]; [discriminate H|]). exact H.
      * intros a b E. places E a.
    + rewrite Ho.
      destruct (executor_closed_steps rest
                  (mkRun (unsubscribe (subscriber r)) (steps r ++ [Cancelled])))
        as (tail & Ht & Hs);
        [cbn [subscriber]; unfold unsubscribe; rewrite Ho; reflexivity|].
      exists (Cancelled :: tail). split; [|split; [|split]].
      * rewrite Ht. cbn [steps]. rewrite <- app_assoc. reflexivity.
      * apply (preceded_app _ _ [Cancelled]);
          [|apply stopped_fragments, Hs].
        apply fragments_none. intros d [H | []]. discriminate H.
      * apply (followed_app _ _ [Cancelled]); [|apply stopped_pulls, Hs].
        apply pulls_none. intros c [H | []]. discriminate H.
      * intros a b E.
        rewrite (split_unique Cancelled [] tail a b
                   (fun H => H) (stopped_no_Cancelled tail Hs) E).
        exact Hs.
Qed.

End Steps.



(** C3, as the executor has it. When the upstream fails after some chunks
    and the consumer has not unsubscribed, the executor delivers the
    content fragments in order, then exactly one more fragment, a JSON
    object whose [error] field is the raw message of the upstream error (a
    fixed text when the error has none), then the error notification, and
    stops: no end marker, no further content, whatever the upstream would
    have done next. The message is not passed through the handler of
    [generateText]. *)
Theorem stream_failure_emits_raw_error
  (chunks : list jsstring) (e : RawError) (rest : list Happening)
  (o : Observable) :
  subscribe (fun _ => map Chunk chunks ++ Fails e :: rest) o
  = map (fun chunk => Delivered (next (JSON_stringify "content" chunk))) chunks
      ++ [Delivered
            (next (JSON_stringify "error"
                     (opt_or_else (e_message e) (lit "流式生成失败"))));
          Delivered (error e)].
Proof.
  unfold subscribe. rewrite forAwait_chunks by reflexivity.
  simpl. unfold catchBlock, sub_error, sub_next. simpl.
  rewrite <- app_assoc. reflexivity.
Qed.

(** C3 as worded fails: three chunks and then a rate-limit error. The
    error fragment carries the provider's own words; the message the
    handler of [generateText] gives this error is another text and is not
    emitted. *)
Lemma stream_error_payload_classified_false :
  category_of openai Samples.rateLimit429 = RateLimited
  /\ deliveries
       (subscribe (fun _ => Samples.threeThenRateLimit)
          (mkObservable openai ∅))
     = [next (JSON_stringify "content" (lit "a"));
        next (JSON_stringify "content" (lit "b"));
        next (JSON_stringify "content" (lit "c"));
        next (JSON_stringify "error" (lit "Rate limit reached"));
        error Samples.rateLimit429]
  /\ ~ In (next (JSON_stringify "error"
                   (message_of (thrown openai Samples.rateLimit429))))
          (deliveries
             (subscribe (fun _ => Samples.threeThenRateLimit)
                (mkObservable openai ∅))).
Proof.
  split; [vm_compute; reflexivity|].
  split; [vm_compute; reflexivity|].
  vm_compute. intros H.
  repeat (destruct H as [H | H]; [discriminate H|]). exact H.
Qed.

(** * Further properties of the service and its controller *)

(** ** Runs of the streaming executor *)

Section Runs.

Implicit Types (s : Subscriber) (timeline : list Happening).

Lemma interruption_not_chunk timeline chunk :
  interruption timeline <> Some (Chunk chunk).
Proof.
  induction timeline as [|h rest IH]; [discriminate|].
  destruct h; simpl; [exact IH | discriminate | discriminate].
Qed.

(** A run from an open subscriber, in closed form. *)
Lemma forAwait_open_form timeline s :
  closed s = false ->
  moments (forAwait timeline s)
    = moments s ++ map contentMoment (leadingChunks timeline)
        ++ ending (interruption timeline)
  /\ closed (forAwait timeline s) = true.
Proof.
  revert s. induction timeline as [|h rest IH]; intros s Ho.
  - unfold forAwait, afterLoop, sub_complete, sub_next. rewrite Ho. simpl.
    rewrite <- app_assoc. split; reflexivity.
  - destruct h as [chunk|e|]; simpl.
    + rewrite Ho.
      destruct (IH (sub_next (JSON_stringify "content" chunk) s)) as [Hm Hc];
        [unfold sub_next; rewrite Ho; reflexivity|].
      rewrite Hm, Hc. unfold sub_next. rewrite Ho. simpl.
      rewrite <- app_assoc. split; reflexivity.
    + unfold catchBlock, sub_error, sub_next. rewrite Ho. simpl.
      rewrite <- app_assoc. split; reflexivity.
    + rewrite forAwait_closed by (unfold unsubscribe; rewrite Ho; reflexivity).
      unfold unsubscribe. rewrite Ho. split; reflexivity.
Qed.

Lemma doneMoment_not_content (chunks : list jsstring) :
  ~ In doneMoment (map contentMoment chunks).
Proof. rewrite in_map_iff. intros (x & Hx & _). discriminate Hx. Qed.

End Runs.




(** ** More on the normaliser *)

Section Blank.

Implicit Types (s : jsstring).

Lemma trimStart_nil_iff s :
  trimStart s = [] <-> Forall (fun c => isWhiteSpace c = true) s.
Proof.
  induction s as [|c r IH]; simpl.
  - split; [constructor | reflexivity].
  - destruct (isWhiteSpace c) eqn:E.
    + rewrite IH. split; [intros H; constructor; assumption|].
      intros H; inversion H; assumption.
    + split; [discriminate|]. intros H; inversion H; congruence.
Qed.

Lemma trim_nil_iff s :
  trim s = [] <-> Forall (fun c => isWhiteSpace c = true) s.
Proof.
  rewrite <- trimStart_nil_iff. unfold trim.
  destruct (trimStart_head s) as [-> | (c & r & -> & Hc)];
    [split; reflexivity|].
  destruct (trimEnd_head c r Hc) as [r' ->]. split; discriminate.
Qed.

Lemma truthy_false_iff s : JsString.truthy s = false <-> s = [].
Proof. destruct s; simpl; split; congruence. Qed.

(** [blank] holds exactly of what is missing or all white space. *)
Lemma blank_iff (o : option jsstring) : blank o = true <-> onlyWhiteSpace o.
Proof.
  destruct o as [s|]; simpl; [|tauto].
  rewrite orb_true_iff, !negb_true_iff, !truthy_false_iff, trim_nil_iff.
  split; [|tauto]. intros [-> | H]; [constructor | exact H].
Qed.

Lemma valid_model_not_blank (providerId m : jsstring) :
  validateModel providerId m = true -> blank (Some m) = false.
Proof.
  unfold validateModel. rewrite arrayIncludes_In. unfold getModelsByProvider.
  destruct (JsString.eqb providerId (lit "openai"));
    [|destruct (JsString.eqb providerId (lit "deepseek"));
      [|destruct (JsString.eqb providerId (lit "gemini"))]];
    simpl; intros H;
    repeat (destruct H as [<- | H]; [vm_compute; reflexivity|]);
    contradiction.
Qed.

End Blank.

(** X3. Whatever the normaliser returns is well formed: the provider is one
    of the three identifiers and the model, returned as it was sent, is one
    of that provider's models; the prompt and the system text are trimmed
    and at least one of them is not empty; a temperature is a finite number
    in [0,2]; a token limit is an integer from 1 to 1000000. *)
Theorem canonical_request_well_formed
  (payload : GenerateTextDto) (c : Normalized)
  (Hok : validateAndNormalizeParams payload = Return c) :
  (exists p, provider payload = id_of p /\ n_providerId c = id_of p
             /\ In (n_model c) (getModelsByProvider (id_of p)))
  /\ model payload = Some (n_model c)
  /\ trim (n_prompt c) = n_prompt c
  /\ (forall s, n_system c = Some s -> trim s = s)
  /\ (JsString.truthy (n_prompt c) = true
      \/ exists s, n_system c = Some s /\ JsString.truthy s = true)
  /\ (forall t, n_temperature c = Some t ->
        exists q, t = Finite q /\ (0 <= q)%Q /\ (q <= 2)%Q)
  /\ (forall v, n_maxTokens c = Some v ->
        exists z, v = of_Z z /\ 1 <= z <= 1000000).
Proof.
  destruct (validate_returns _ _ Hok)
    as (m & Hn & Hmt & Ht & Hp & Hm & Hpr & Hsy).
  destruct (validateNames_returns _ _ Hn) as (_ & Hmodel & _ & Hv & Hps).
  destruct (normalized_provider _ _ Hok) as (p & Hid & _).
  rewrite (valid_models_trimmed _ _ Hv) in Hm.
  split.
  { exists p. rewrite <- Hp, Hid. repeat split.
    rewrite Hm, <- Hid, Hp. apply arrayIncludes_In, Hv. }
  split; [rewrite Hm; exact Hmodel|].
  split.
  { rewrite Hpr. unfold or_else.
    destruct (JsString.truthy (from_option trim [] (prompt payload)));
      [|reflexivity].
    destruct (prompt payload); [apply trim_idem | reflexivity]. }
  split.
  { intros s Hs. rewrite Hsy in Hs.
    destruct (system payload) as [raw|]; [|discriminate].
    inversion Hs. apply trim_idem. }
  split.
  { apply andb_false_iff in Hps. destruct Hps as [H | H];
      apply blank_false in H; destruct H as (raw & Hraw & Htr).
    - left. rewrite Hpr, Hraw. unfold or_else. simpl. rewrite Htr. exact Htr.
    - right. exists (trim raw). rewrite Hsy, Hraw. split; [reflexivity|exact Htr]. }
  split.
  { intros t Hsome. rewrite Hsome in Ht.
    destruct (temperature payload) as [[| |q]|]; try discriminate.
    rewrite normalizeTemperature_finite in Ht. inversion Ht.
    exists (clamp q). split; [reflexivity | apply clamp_bounds]. }
  intros v Hsome. rewrite Hsome in Hmt.
  destruct (maxTokens payload) as [[| |q]|]; try discriminate.
  rewrite normalizeMaxTokens_finite in Hmt.
  destruct (Z.ltb_spec (floorAbs q) 1); [discriminate|].
  destruct (Z.ltb_spec 1000000 (floorAbs q)); [discriminate|].
  inversion Hmt. exists (floorAbs q). split; [reflexivity | lia].
Qed.

Lemma canonical_request_well_formed_witness :
  exists p, provider Samples.hotRequest = id_of p
            /\ lit "openai" = id_of p
            /\ In (lit "gpt-4o") (getModelsByProvider (id_of p)).
Proof.
  destruct (canonical_request_well_formed Samples.hotRequest
              (mkNormalized (lit "openai") (lit "gpt-4o") (lit "hi") None
                 (Some (Finite 2)) None) eq_refl) as [H _].
  exact H.
Defined.

(** X4. White space counts as nothing. With a provider the table answers
    to, a model that is missing or made only of white space is rejected as
    an empty model name; and with a valid model, a request whose prompt and
    system text are both missing or made only of white space is rejected
    for lacking both, before any numeric field is looked at. *)
Theorem white_space_counts_as_empty (payload : GenerateTextDto)
  (Hprovider : providers (provider payload) <> undefined) :
  (onlyWhiteSpace (model payload) ->
   validateAndNormalizeParams payload =
     Throw (BadRequestException (lit "模型名称不能为空")))
  /\ (forall m, model payload = Some m ->
        validateModel (provider payload) m = true ->
        onlyWhiteSpace (prompt payload) -> onlyWhiteSpace (system payload) ->
        validateAndNormalizeParams payload =
          Throw (BadRequestException (lit "prompt 和 system 至少需要提供一个"))).
Proof.
  split.
  - intros Hws. apply blank_iff in Hws.
    unfold validateAndNormalizeParams, validateNames, bind.
    destruct (providers (provider payload)); [| |contradiction];
      (destruct (model payload) as [m|]; [rewrite Hws|]; reflexivity).
  - intros m Hm Hv Hp Hs. apply blank_iff in Hp, Hs.
    unfold validateAndNormalizeParams, validateNames, bind.
    rewrite Hm, (valid_model_not_blank _ _ Hv), Hv, Hp, Hs.
    destruct (providers (provider payload)); [| |contradiction]; reflexivity.
Qed.

Lemma white_space_counts_as_empty_witness :
  validateAndNormalizeParams
    (mkDto (lit "openai") (Some [32; 160; 9]%N) (Some (lit "hi")) None None
       None false)
  = Throw (BadRequestException (lit "模型名称不能为空")).
Proof.
  destruct (white_space_counts_as_empty
              (mkDto (lit "openai") (Some [32; 160; 9]%N) (Some (lit "hi"))
                 None None None false)) as [H _].
  - vm_compute. discriminate.
  - apply H. simpl. repeat constructor.
Defined.

(** ** More on the two executors *)

Lemma create_with_key (env : Env) (p : ProviderId) (key : jsstring) :
  env (envKey p) = Some key -> JsString.truthy key = true ->
  create env p = Return (mkProvider p key).
Proof. intros He Hk. unfold create. rewrite He, Hk. reflexivity. Qed.

Lemma create_throws (env : Env) (p : ProviderId) (e : Exception) :
  create env p = Throw e ->
  e = InternalServerErrorException (missingKeyMessage p).
Proof.
  unfold create. destruct (env (envKey p)) as [key|];
    [destruct (JsString.truthy key)|]; intros H; inversion H; reflexivity.
Qed.

Lemma thrown_class (p : ProviderId) (e : RawError) :
  (category_of p e <> Internal /\ exists msg, thrown p e = BadRequestException msg)
  \/ (category_of p e = Internal
      /\ thrown p e =
           InternalServerErrorException
             (lit "调用 " ++ label p ++ lit " 模型失败: "
                ++ describe e (lit "未知错误"))).
Proof.
  unfold category_of, thrown, handleError.
  destruct (isParameterError e); [left; split; [discriminate | eauto]|].
  destruct (isBalanceError e); [left; split; [discriminate | eauto]|].
  destruct (isRateLimitError e); [left; split; [discriminate | eauto]|].
  destruct (isPermissionError e);
    [destruct (includes (errorMessage e) (lit "leaked"));
     left; (split; [discriminate | eauto])|].
  destruct (isAuthError e); [left; split; [discriminate | eauto]|].
  right. split; reflexivity.
Qed.

(** X5. When the request is valid, the provider's credential is set and the
    SDK call resolves, [generateText] returns the provider and the model of
    the request as they were sent, with the text, finish reason and usage
    of the SDK result; the SDK was called with the model bound to that
    credential. *)
Theorem generateText_returns_sdk_result
  (env : Env) (sdk : gmap string ParamValue -> Settled)
  (payload : GenerateTextDto) (c : Normalized) (p : ProviderId)
  (key : jsstring) (result : SdkResult)
  (Hok : validateAndNormalizeParams payload = Return c)
  (Hp : provider payload = id_of p)
  (Hkey : env (envKey p) = Some key)
  (Hset : JsString.truthy key = true)
  (Hsdk : sdk (syncRequestParams (mkProvider p key) c) = Resolved result) :
  exists m,
    model payload = Some m
    /\ generateText env sdk payload =
         Return (mkResult (provider payload) m (text result)
                   (finishReason result) (usage result))
    /\ syncRequestParams (mkProvider p key) c !! "model"
       = Some (LanguageModel (mkProvider p key) m).
Proof.
  destruct (validate_returns _ _ Hok)
    as (m & Hn & _ & _ & Hprov & Hm & _ & _).
  destruct (validateNames_returns _ _ Hn) as (_ & Hmodel & _ & Hv & _).
  rewrite (valid_models_trimmed _ _ Hv) in Hm.
  exists m. split; [exact Hmodel|]. split.
  - unfold generateText, bind. rewrite Hok, Hprov, Hp, providers_of_id.
    rewrite (create_with_key env p key Hkey Hset), Hsdk, Hm. reflexivity.
  - unfold syncRequestParams. rewrite Hm.
    destruct (n_system c) as [s|]; [destruct (JsString.truthy s)|];
      destruct (n_temperature c); destruct (n_maxTokens c);
      simplify_map_eq; reflexivity.
Qed.

Lemma generateText_returns_sdk_result_witness :
  exists m,
    model Samples.hotRequest = Some m
    /\ generateText (fun _ => Some (lit "sk-test"))
         (fun _ => Resolved (mkSdkResult (lit "hello") None []))
         Samples.hotRequest
       = Return (mkResult (provider Samples.hotRequest) m (lit "hello") None [])
    /\ syncRequestParams (mkProvider openai (lit "sk-test"))
         (mkNormalized (lit "openai") (lit "gpt-4o") (lit "hi") None
            (Some (Finite 2)) None) !! "model"
       = Some (LanguageModel (mkProvider openai (lit "sk-test")) m).
Proof.
  apply (generateText_returns_sdk_result (fun _ => Some (lit "sk-test"))
           (fun _ => Resolved (mkSdkResult (lit "hello") None []))
           Samples.hotRequest
           (mkNormalized (lit "openai") (lit "gpt-4o") (lit "hi") None
              (Some (Finite 2)) None)
           openai (lit "sk-test") (mkSdkResult (lit "hello") None []));
    reflexivity.
Defined.

(** X6. The two executors accept and refuse the same requests: whenever
    [generateTextStream] throws, [generateText] throws the same exception
    without calling the SDK; whenever it returns an observable,
    [generateText] gets as far as the SDK call, with the same provider,
    the same credential and the same canonical request, and its outcome is
    that of the call. *)
Theorem executors_refuse_alike
  (env : Env) (sdk : gmap string ParamValue -> Settled)
  (payload : GenerateTextDto) :
  match generateTextStream env payload with
  | Throw e => generateText env sdk payload = Throw e
  | Return o =>
      exists c key,
        validateAndNormalizeParams payload = Return c
        /\ env (envKey (o_provider o)) = Some key
        /\ o_requestParams o
           = streamRequestParams (mkProvider (o_provider o) key) c
        /\ generateText env sdk payload =
             match sdk (syncRequestParams (mkProvider (o_provider o) key) c)
             with
             | Resolved result =>
                 Return (mkResult (n_providerId c) (n_model c) (text result)
                           (finishReason result) (usage result))
             | Rejected err => Throw (thrown (o_provider o) err)
             end
  end.
Proof.
  unfold generateTextStream, generateText, bind.
  destruct (validateAndNormalizeParams payload) as [c|e]; [|reflexivity].
  destruct (providers (n_providerId c)) as [p| |]; try reflexivity.
  unfold create. destruct (env (envKey p)) as [key|] eqn:Ekey; [|reflexivity].
  destruct (JsString.truthy key); [|reflexivity].
  exists c, key. cbn [o_provider o_requestParams].
  repeat split; assumption.
Qed.

(** X7. Neither executor ever fails with a TypeError: a request naming a
    member that the provider table only inherits never reaches [create].
    Whatever the request, the environment and the SDK do, a failure of
    [generateText] is a BadRequest or an Internal error, and a failure of
    [generateTextStream] is a BadRequest of the normaliser or the Internal
    error of a missing credential. *)
Theorem executors_never_throw_TypeError
  (env : Env) (sdk : gmap string ParamValue -> Settled)
  (payload : GenerateTextDto) :
  generateText env sdk payload <> Throw TypeError
  /\ generateTextStream env payload <> Throw TypeError
  /\ (forall e, generateTextStream env payload = Throw e ->
        (validateAndNormalizeParams payload = Throw e
         /\ exists msg, e = BadRequestException msg)
        \/ exists p, provider payload = id_of p
                     /\ e = InternalServerErrorException (missingKeyMessage p)).
Proof.
  assert (Hstream : forall e, generateTextStream env payload = Throw e ->
        (validateAndNormalizeParams payload = Throw e
         /\ exists msg, e = BadRequestException msg)
        \/ exists p, provider payload = id_of p
                     /\ e = InternalServerErrorException (missingKeyMessage p)).
  { intros e. unfold generateTextStream, bind.
    destruct (validateAndNormalizeParams payload) as [c|e'] eqn:Ev.
    - destruct (normalized_provider _ _ Ev) as (p & Hid & Hentry).
      destruct (validate_returns _ _ Ev) as (_ & _ & _ & _ & Hprov & _).
      rewrite Hentry. destruct (create env p) as [sdkp|e''] eqn:Ec;
        [discriminate|].
      intros H; inversion H; subst. right. exists p.
      split; [congruence | exact (create_throws _ _ _ Ec)].
    - intros H; inversion H; subst. left.
      split; [reflexivity | exact (validate_throws _ _ Ev)]. }
  split; [|split; [|exact Hstream]].
  - unfold generateText, bind.
    destruct (validateAndNormalizeParams payload) as [c|e'] eqn:Ev.
    + destruct (normalized_provider _ _ Ev) as (p & _ & Hentry).
      rewrite Hentry. destruct (create env p) as [sdkp|e''] eqn:Ec.
      * destruct (sdk _) as [r|err]; [discriminate|].
        destruct (thrown_class p err) as [[_ [msg ->]] | [_ ->]]; discriminate.
      * rewrite (create_throws _ _ _ Ec). discriminate.
    + destruct (validate_throws _ _ Ev) as [msg ->]. discriminate.
  - intros H. destruct (Hstream _ H) as [[_ [msg Hm]] | (p & _ & Hm)];
      discriminate Hm.
Qed.

(** X8. An upstream failure is answered with status 400 whenever the
    handler recognises it, also when the upstream status was 401, 402, 403
    or 429; only an error that matches no condition is answered with 500,
    and its message then names the provider and carries the upstream
    message (the error's text, or a fixed text, when it has none). *)
Theorem upstream_errors_answered_with_400 (p : ProviderId) (e : RawError) :
  getResponse (thrown p e) !! "statusCode"
    = Some (JNumber (match category_of p e with
                     | Internal => 500
                     | _ => 400
                     end))
  /\ (category_of p e = Internal
      <-> isParameterError e = false /\ isBalanceError e = false
          /\ isRateLimitError e = false /\ isPermissionError e = false
          /\ isAuthError e = false)
  /\ (category_of p e = Internal ->
      exists msg,
        thrown p e = InternalServerErrorException msg
        /\ includes msg (label p) = true
        /\ includes msg (describe e (lit "未知错误")) = true).
Proof.
  split; [|split].
  - destruct (thrown_class p e) as [[Hc [msg ->]] | [-> ->]]; [|reflexivity].
    destruct (category_of p e); try reflexivity. contradiction.
  - unfold category_of, handleError.
    destruct (isParameterError e); [split; [discriminate | intros H; destruct H as (H & _); discriminate H]|].
    destruct (isBalanceError e); [split; [discriminate | intros H; destruct H as (_ & H & _); discriminate H]|].
    destruct (isRateLimitError e); [split; [discriminate | intros H; destruct H as (_ & _ & H & _); discriminate H]|].
    destruct (isPermissionError e);
      [destruct (includes (errorMessage e) (lit "leaked"));
       (split; [discriminate | intros H; destruct H as (_ & _ & _ & H & _); discriminate H])|].
    destruct (isAuthError e); [split; [discriminate | intros H; destruct H as (_ & _ & _ & _ & H); discriminate H]|].
    split; [repeat split | reflexivity].
  - intros Hc. destruct (thrown_class p e) as [[Hn _] | [_ ->]];
      [contradiction|].
    eexists. split; [reflexivity|]. split.
    + apply includes_infix.
    + apply includes_app_r, includes_app_r, includes_suffix.
Qed.

Lemma upstream_errors_answered_with_400_witness :
  exists msg,
    thrown deepseek (mkError None (Some (lit "socket hang up")) None None None
                       None)
    = InternalServerErrorException msg
    /\ includes msg (label deepseek) = true
    /\ includes msg
         (describe (mkError None (Some (lit "socket hang up")) None None None
                      None) (lit "未知错误")) = true.
Proof.
  destruct (upstream_errors_answered_with_400 deepseek
              (mkError None (Some (lit "socket hang up")) None None None None))
    as (_ & _ & H).
  apply H. vm_compute. reflexivity.
Defined.

Lemma executors_never_throw_TypeError_witness :
  (validateAndNormalizeParams Samples.deepseekRequest
     = Throw (InternalServerErrorException (missingKeyMessage deepseek))
   /\ exists msg,
        InternalServerErrorException (missingKeyMessage deepseek)
        = BadRequestException msg)
  \/ exists p, provider Samples.deepseekRequest = id_of p
               /\ InternalServerErrorException (missingKeyMessage deepseek)
                  = InternalServerErrorException (missingKeyMessage p).
Proof.
  destruct (executors_never_throw_TypeError Samples.emptyEnv
              (fun _ => Rejected Samples.rateLimit429)
              Samples.deepseekRequest) as (_ & _ & H).
  apply H. vm_compute. reflexivity.
Defined.

(** ** Listings *)

Section Listings.

Lemma In_map_id_of (key : jsstring) :
  In key (map l_id getAvailableProviders) <-> exists p, key = id_of p.
Proof.
  unfold getAvailableProviders. simpl. split.
  - intros [<- | [<- | [<- | []]]];
      [exists openai | exists deepseek | exists gemini]; reflexivity.
  - intros [[| |] ->]; auto.
Qed.

Lemma getAvailableModels_ids (provider : jsstring) :
  map l_id (getAvailableModels provider) = getModelsByProvider provider.
Proof.
  unfold getAvailableModels. rewrite map_map. simpl. apply map_id.
Qed.

Lemma known_ids_included (key : jsstring) :
  arrayIncludes [lit "openai"; lit "deepseek"; lit "gemini"] key = true
  <-> exists p, key = id_of p.
Proof.
  rewrite arrayIncludes_In. simpl. split.
  - intros [<- | [<- | [<- | []]]];
      [exists openai | exists deepseek | exists gemini]; reflexivity.
  - intros [[| |] ->]; auto.
Qed.

End Listings.

(** X9. The model listing of a provider names exactly the models the
    normaliser accepts for it, in the order of the enum; every listed model
    carries the display name the table gives it, so the fallback to the
    bare identifier is never used; and a model identifier belongs to one
    provider only. *)
Theorem listed_models_are_the_valid_ones (p : ProviderId) :
  map l_id (getAvailableModels (id_of p)) = getModelsByProvider (id_of p)
  /\ (forall m, In m (map l_id (getAvailableModels (id_of p)))
                <-> validateModel (id_of p) m = true)
  /\ (forall entry, In entry (getAvailableModels (id_of p)) ->
        displayName ModelDisplayNames (l_id entry) = Some (l_label entry)
        /\ JsString.truthy (l_label entry) = true
        /\ forall p', validateModel (id_of p') (l_id entry) = true -> p' = p).
Proof.
  split; [apply getAvailableModels_ids|]. split.
  - intros m. rewrite getAvailableModels_ids. unfold validateModel.
    symmetry. apply arrayIncludes_In.
  - intros entry Hin.
    destruct p; vm_compute in Hin;
      repeat (destruct Hin as [<- | Hin];
              [split; [vm_compute; reflexivity|];
               split; [vm_compute; reflexivity|];
               intros [| |] H; try reflexivity; vm_compute in H; discriminate H
              |]);
      contradiction.
Qed.

Lemma listed_models_are_the_valid_ones_witness :
  displayName ModelDisplayNames (lit "deepseek-chat")
    = Some (lit "DeepSeek Chat")
  /\ JsString.truthy (lit "DeepSeek Chat") = true
  /\ forall p', validateModel (id_of p') (lit "deepseek-chat") = true ->
                p' = deepseek.
Proof.
  destruct (listed_models_are_the_valid_ones deepseek) as (_ & _ & H).
  apply (H (mkListed (lit "deepseek-chat") (lit "DeepSeek Chat"))).
  vm_compute. right. left. reflexivity.
Defined.

(** X10. The controller's model listing answers exactly for the providers
    that [getAvailableProviders] lists, which are the keys under which the
    service's table holds an entry of its own; for any other provider, also
    a missing or empty one and also a member name the table only inherits,
    it fails with a BadRequest. *)
Theorem getModels_answers_for_listed_providers (provider : option jsstring) :
  ((exists models, getModels provider = Return models)
   <-> exists key, provider = Some key
                   /\ In key (map l_id getAvailableProviders))
  /\ (forall key, In key (map l_id getAvailableProviders)
                  <-> exists p, providers key = Entry p)
  /\ (forall models, getModels provider = Return models ->
        exists p, provider = Some (id_of p)
                  /\ models = getAvailableModels (id_of p))
  /\ (forall e, getModels provider = Throw e ->
        e = BadRequestException (lit "不支持的模型提供方")).
Proof.
  assert (Hret : forall models, getModels provider = Return models ->
            exists p, provider = Some (id_of p)
                      /\ models = getAvailableModels (id_of p)).
  { intros models. unfold getModels. destruct provider as [key|]; [|discriminate].
    destruct (JsString.truthy key); cbn [negb orb]; [|discriminate].
    destruct (arrayIncludes _ key) eqn:E; cbn [negb]; [|discriminate].
    apply known_ids_included in E. destruct E as [p ->].
    intros H; inversion H. exists p. split; reflexivity. }
  split; [split|split; [|split; [exact Hret|]]].
  - intros [models H]. destruct (Hret _ H) as (p & -> & _).
    exists (id_of p). split; [reflexivity|]. apply In_map_id_of. eauto.
  - intros (key & -> & Hin). apply In_map_id_of in Hin. destruct Hin as [p ->].
    exists (getAvailableModels (id_of p)). destruct p; reflexivity.
  - intros key. rewrite In_map_id_of. split.
    + intros [p ->]. exists p. apply providers_of_id.
    + intros [p H]. exists p. unfold providers in H.
      destruct (JsString.eqb key (lit "openai")) eqn:E1;
        [apply eqb_true in E1; inversion H; subst; reflexivity|].
      destruct (JsString.eqb key (lit "deepseek")) eqn:E2;
        [apply eqb_true in E2; inversion H; subst; reflexivity|].
      destruct (JsString.eqb key (lit "gemini")) eqn:E3;
        [apply eqb_true in E3; inversion H; subst; reflexivity|].
      destruct (arrayIncludes objectPrototypeNames key); discriminate H.
  - intros e. unfold getModels. destruct provider as [key|];
      [|intros H; inversion H; reflexivity].
    destruct (negb (JsString.truthy key) || _);
      intros H; inversion H; reflexivity.
Qed.

Lemma getModels_answers_for_listed_providers_witness :
  getModels (Some (lit "constructor"))
    = Throw (BadRequestException (lit "不支持的模型提供方"))
  /\ BadRequestException (lit "不支持的模型提供方")
     = BadRequestException (lit "不支持的模型提供方").
Proof.
  split; [vm_compute; reflexivity|].
  destruct (getModels_answers_for_listed_providers (Some (lit "constructor")))
    as (_ & _ & _ & H).
  apply H. vm_compute. reflexivity.
Defined.

(** X11. Every model that the controller lists for a provider can be used:
    a request for that provider and that model, with a prompt or a system
    text that is not blank and no numeric field, passes the normaliser,
    which returns the provider and the model unchanged. *)
Theorem listed_model_is_accepted
  (p : ProviderId) (models : list Listed) (entry : Listed)
  (payload : GenerateTextDto)
  (Hlist : getModels (Some (id_of p)) = Return models)
  (Hin : In entry models)
  (Hprovider : provider payload = id_of p)
  (Hmodel : model payload = Some (l_id entry))
  (Htext : blank (prompt payload) && blank (system payload) = false)
  (Hmt : maxTokens payload = None)
  (Htemp : temperature payload = None) :
  validateAndNormalizeParams payload =
    Return (mkNormalized (id_of p) (l_id entry)
              (or_else (from_option trim [] (prompt payload)) [])
              (option_map trim (system payload)) None None).
Proof.
  assert (Hmodels : models = getAvailableModels (id_of p)).
  { destruct p; vm_compute in Hlist; inversion Hlist; reflexivity. }
  subst models.
  assert (Hv : validateModel (id_of p) (l_id entry) = true).
  { unfold validateModel. apply arrayIncludes_In.
    rewrite <- getAvailableModels_ids. apply in_map, Hin. }
  unfold validateAndNormalizeParams, validateNames, bind.
  rewrite Hprovider, providers_of_id, Hmodel,
    (valid_model_not_blank _ _ Hv), Hv, Htext, Hmt, Htemp.
  cbn [negb normalizeMaxTokens normalizeTemperature].
  rewrite (valid_models_trimmed _ _ Hv). reflexivity.
Qed.

Lemma listed_model_is_accepted_witness :
  validateAndNormalizeParams Samples.deepseekRequest =
    Return (mkNormalized (id_of deepseek) (lit "deepseek-chat")
              (or_else (from_option trim [] (prompt Samples.deepseekRequest))
                 [])
              (option_map trim (system Samples.deepseekRequest)) None None).
Proof.
  apply (listed_model_is_accepted deepseek
           (getAvailableModels (id_of deepseek))
           (mkListed (lit "deepseek-chat") (lit "DeepSeek Chat"))
           Samples.deepseekRequest);
    try reflexivity.
  vm_compute. right. left. reflexivity.
Defined.

(** ** Request parameters, from the request *)

Section ParamLookups.

Variables (sdk : Provider) (c : Normalized).

Lemma sync_lookups :
  syncRequestParams sdk c !! "prompt" = Some (Text (n_prompt c))
  /\ syncRequestParams sdk c !! "system" = systemSent c
  /\ syncRequestParams sdk c !! "temperature" = Num <$> n_temperature c.
Proof.
  unfold syncRequestParams, systemSent.
  destruct (n_system c) as [s|]; [destruct (JsString.truthy s)|];
    destruct (n_temperature c); destruct (n_maxTokens c);
    simplify_map_eq; repeat split; reflexivity.
Qed.

Lemma stream_lookups :
  streamRequestParams sdk c !! "prompt" = Some (Text (n_prompt c))
  /\ streamRequestParams sdk c !! "system" = systemSent c
  /\ streamRequestParams sdk c !! "temperature" = Num <$> n_temperature c.
Proof.
  unfold streamRequestParams, systemSent.
  destruct (n_system c) as [s|]; [destruct (JsString.truthy s)|];
    destruct (n_temperature c); destruct (n_maxTokens c);
    simplify_map_eq; repeat split; reflexivity.
Qed.

Lemma limit_lookups :
  syncRequestParams sdk c !! "maxOutputTokens" = Num <$> n_maxTokens c
  /\ streamRequestParams sdk c !! "maxTokens" = Num <$> n_maxTokens c.
Proof.
  unfold syncRequestParams, streamRequestParams.
  destruct (n_system c) as [s|]; [destruct (JsString.truthy s)|];
    destruct (n_temperature c); destruct (n_maxTokens c);
    simplify_map_eq; repeat split; reflexivity.
Qed.

End ParamLookups.

(** X12. What reaches the SDK of the optional fields of a request that
    passed the normaliser, in both executors: the prompt is always sent,
    trimmed, even when it is empty; the system text is left out exactly
    when it is missing or made only of white space; the temperature is left
    out exactly when the request has none, so a temperature of 0 is sent;
    and the token limit is left out exactly when the request has none. *)
Theorem optional_fields_reach_the_sdk
  (payload : GenerateTextDto) (c : Normalized) (sdk : Provider)
  (Hok : validateAndNormalizeParams payload = Return c) :
  syncRequestParams sdk c !! "prompt"
    = Some (Text (or_else (from_option trim [] (prompt payload)) []))
  /\ streamRequestParams sdk c !! "prompt"
     = Some (Text (or_else (from_option trim [] (prompt payload)) []))
  /\ (syncRequestParams sdk c !! "system" = None
      <-> onlyWhiteSpace (system payload))
  /\ (streamRequestParams sdk c !! "system" = None
      <-> onlyWhiteSpace (system payload))
  /\ (syncRequestParams sdk c !! "temperature" = None
      <-> temperature payload = None)
  /\ (streamRequestParams sdk c !! "temperature" = None
      <-> temperature payload = None)
  /\ (syncRequestParams sdk c !! "maxOutputTokens" = None
      <-> maxTokens payload = None)
  /\ (streamRequestParams sdk c !! "maxTokens" = None
      <-> maxTokens payload = None).
Proof.
  destruct (validate_returns _ _ Hok)
    as (m & _ & Hmt & Ht & _ & _ & Hpr & Hsy).
  assert (Hsys : forall s, n_system c = Some s ->
            (JsString.truthy s = false <-> onlyWhiteSpace (system payload))).
  { intros s Hs. rewrite Hsy in Hs.
    destruct (system payload) as [raw|]; [|discriminate].
    inversion Hs. simpl. rewrite truthy_false_iff. apply trim_nil_iff. }
  assert (Hsysn : n_system c = None -> onlyWhiteSpace (system payload)).
  { intros Hs. rewrite Hsy in Hs.
    destruct (system payload); [discriminate | exact I]. }
  assert (Htn : n_temperature c = None <-> temperature payload = None).
  { destruct (temperature payload) as [[| |q]|]; try discriminate;
      inversion Ht; split; congruence. }
  assert (Hmn : n_maxTokens c = None <-> maxTokens payload = None).
  { destruct (maxTokens payload) as [[| |q]|]; try discriminate.
    - rewrite normalizeMaxTokens_finite in Hmt.
      destruct (floorAbs q <? 1); [discriminate|].
      destruct (1000000 <? floorAbs q); [discriminate|].
      inversion Hmt. split; discriminate.
    - inversion Hmt. split; reflexivity. }
  assert (Hss : systemSent c = None <-> onlyWhiteSpace (system payload)).
  { unfold systemSent. destruct (n_system c) as [s|] eqn:Es.
    - rewrite <- (Hsys s eq_refl).
      destruct (JsString.truthy s); split; congruence.
    - split; [intros _; exact (Hsysn eq_refl) | reflexivity]. }
  assert (Hnum : forall o : option number, Num <$> o = None <-> o = None).
  { intros [x|]; simpl; split; congruence. }
  destruct (sync_lookups sdk c) as (-> & -> & ->).
  destruct (stream_lookups sdk c) as (-> & -> & ->).
  destruct (limit_lookups sdk c) as (-> & ->).
  rewrite !Hnum, Hpr. tauto.
Qed.

Lemma optional_fields_reach_the_sdk_witness :
  syncRequestParams Samples.openaiSdk
    (mkNormalized (lit "openai") (lit "gpt-4o") (lit "hi") None
       (Some (Finite 2)) None) !! "prompt"
  = Some (Text (or_else (from_option trim [] (prompt Samples.hotRequest)) [])).
Proof.
  destruct (optional_fields_reach_the_sdk Samples.hotRequest
              (mkNormalized (lit "openai") (lit "gpt-4o") (lit "hi") None
                 (Some (Finite 2)) None) Samples.openaiSdk eq_refl)
    as (H & _).
  exact H.
Defined.

(** ** More on the retry hint *)

Section RetryMatching.

Implicit Types (c : N) (s pat : jsstring).

Lemma toUpperAscii_idem c : toUpperAscii (toUpperAscii c) = toUpperAscii c.
Proof.
  unfold toUpperAscii.
  destruct ((97 <=? c) && (c <=? 122))%N eqn:E; [|rewrite E; reflexivity].
  apply andb_true_iff in E. destruct E as [E1 E2].
  apply N.leb_le in E1, E2.
  destruct (N.leb_spec 97 (c - 32)); [lia | reflexivity].
Qed.

Lemma isDigitOrDot_upper c : isDigitOrDot (toUpperAscii c) = isDigitOrDot c.
Proof.
  unfold toUpperAscii, isDigitOrDot, isDigit.
  destruct ((97 <=? c) && (c <=? 122))%N eqn:E; [|reflexivity].
  apply andb_true_iff in E. destruct E as [E1 E2].
  apply N.leb_le in E1, E2.
  repeat match goal with
         | |- context [(?a <=? ?b)%N] => destruct (N.leb_spec a b)
         | |- context [(?a =? ?b)%N] => destruct (N.eqb_spec a b)
         end; simpl; try reflexivity; lia.
Qed.

Lemma digit_upper c : isDigitOrDot c = true -> toUpperAscii c = c.
Proof.
  unfold toUpperAscii, isDigitOrDot, isDigit. intros H.
  destruct (N.leb_spec 97 c); [|reflexivity].
  apply orb_true_iff in H. destruct H as [H | H].
  - apply andb_true_iff in H. destruct H as [_ H]. apply N.leb_le in H. lia.
  - apply N.eqb_eq in H. lia.
Qed.

Lemma matchIgnoreCase_upper pat s :
  matchIgnoreCase pat (map toUpperAscii s)
    = option_map (map toUpperAscii) (matchIgnoreCase pat s).
Proof.
  revert s. induction pat as [|a pat IH]; intros s; [reflexivity|].
  destruct s as [|b s]; [reflexivity|]. simpl.
  rewrite toUpperAscii_idem.
  destruct (toUpperAscii a =? toUpperAscii b)%N; [apply IH | reflexivity].
Qed.

Lemma span_upper s :
  span isDigitOrDot (map toUpperAscii s)
    = (fst (span isDigitOrDot s), map toUpperAscii (snd (span isDigitOrDot s))).
Proof.
  induction s as [|c r IH]; [reflexivity|]. simpl.
  rewrite isDigitOrDot_upper. destruct (isDigitOrDot c) eqn:E.
  - rewrite IH. destruct (span isDigitOrDot r). simpl.
    rewrite (digit_upper c E). reflexivity.
  - reflexivity.
Qed.

Lemma matchHere_upper s : matchHere (map toUpperAscii s) = matchHere s.
Proof.
  unfold matchHere. rewrite matchIgnoreCase_upper.
  destruct (matchIgnoreCase (lit "Please retry in ") s) as [rest|];
    [|reflexivity].
  simpl. rewrite span_upper.
  destruct (span isDigitOrDot rest) as [captured after]. simpl.
  destruct captured; [reflexivity|].
  destruct after as [|c after]; [reflexivity|]. simpl.
  rewrite toUpperAscii_idem. reflexivity.
Qed.

End RetryMatching.

(** X13. The delay is read without regard to letter case: turning every
    ASCII letter of the inspected text to upper case changes neither
    whether the expression matches nor the run of digits it captures. *)
Theorem retry_delay_ignores_case (text : jsstring) :
  retryDelayMatch (map toUpperAscii text) = retryDelayMatch text
  /\ retryDelay (map toUpperAscii text) = retryDelay text.
Proof.
  assert (H : retryDelayMatch (map toUpperAscii text) = retryDelayMatch text).
  { induction text as [|c r IH].
    - reflexivity.
    - rewrite (retryDelayMatch_unfold (c :: r)).
      rewrite (retryDelayMatch_unfold (map toUpperAscii (c :: r))).
      rewrite matchHere_upper. cbn [map]. rewrite IH. reflexivity. }
  split; [exact H|]. unfold retryDelay. rewrite H. reflexivity.
Qed.

Section DecimalDigits.

Let horner := fun (acc : Z) (d : N) => 10 * acc + (Z.of_N d - 48).

Lemma lit_uint_digits (d : Decimal.uint) :
  Forall (fun c => isDigit c = true) (lit (NilEmpty.string_of_uint d)).
Proof.
  induction d; [constructor| ..];
    (change (lit (NilEmpty.string_of_uint ?x)) with x in IHd || idtac);
    unfold lit in *; simpl; constructor; try reflexivity; exact IHd.
Qed.

Lemma horner_of_uint_acc (d : Decimal.uint) (acc : positive) :
  fold_left horner (lit (NilEmpty.string_of_uint d)) (Z.pos acc)
    = Z.pos (Pos.of_uint_acc d acc).
Proof.
  revert acc. induction d; intros acc; [reflexivity| ..];
    unfold lit in *; simpl; rewrite <- IHd; f_equal; unfold horner; lia.
Qed.

Lemma horner_of_uint (d : Decimal.uint) :
  fold_left horner (lit (NilEmpty.string_of_uint d)) 0
    = Z.of_N (N.of_uint d).
Proof.
  induction d; [reflexivity | exact IHd | ..];
    unfold lit in *; simpl; exact (horner_of_uint_acc d _).
Qed.

Lemma digitsValue_decimal (n : N) : digitsValue (decimal n) = Z.of_N n.
Proof.
  unfold digitsValue, decimal.
  change (fun acc d => 10 * acc + (Z.of_N d - 48)) with horner.
  rewrite horner_of_uint, DecimalN.Unsigned.of_to. reflexivity.
Qed.

Lemma decimal_digits (n : N) :
  Forall (fun c => isDigit c = true) (decimal n).
Proof. apply lit_uint_digits. Qed.

Lemma decimal_not_nil (n : N) : decimal n <> [].
Proof.
  unfold decimal. destruct n as [|p]; [discriminate|].
  intros H. apply (f_equal digitsValue) in H.
  change (lit (NilEmpty.string_of_uint (N.to_uint (N.pos p))))
    with (decimal (N.pos p)) in H.
  rewrite digitsValue_decimal in H. discriminate H.
Qed.

Lemma span_digits (s : jsstring) :
  Forall (fun c => isDigit c = true) s -> span isDigit s = (s, []).
Proof.
  induction 1 as [|c r Hc _ IH]; [reflexivity|].
  simpl. rewrite Hc, IH. reflexivity.
Qed.

Lemma parseFloat_decimal (n : N) :
  parseFloat (decimal n) = Finite (inject_Z (Z.of_N n)).
Proof.
  unfold parseFloat. rewrite (span_digits _ (decimal_digits n)).
  rewrite app_nil_r. pose proof (decimal_not_nil n) as Hn.
  destruct (decimal n) as [|c r] eqn:E; [contradiction|].
  rewrite <- E, digitsValue_decimal. reflexivity.
Qed.

End DecimalDigits.

Lemma Number_toString_of_Z (z : Z) :
  0 <= z -> Number_toString (of_Z z) = decimal (Z.to_N z).
Proof.
  intros Hz. unfold Number_toString, of_Z. cbv zeta. rewrite floor_inject.
  destruct (Z.ltb_spec z 0); [lia | reflexivity].
Qed.

(** X14. A whole number of seconds in the provider's phrase is the number
    in the advice: when the inspected text of a rate-limited error starts
    with "Please retry in", a positive integer [n] (below 10^15) and "s",
    the delay read is [n] and the message ends with the advice to wait [n]
    seconds. *)
Theorem integral_delay_is_echoed
  (p : ProviderId) (e : RawError) (n : N) (rest : jsstring)
  (Hrate : category_of p e = RateLimited)
  (Hpos : (0 < n)%N) (Hbound : (n < 10 ^ 15)%N)
  (Htext : errorMessage e
           = lit "Please retry in " ++ decimal n ++ lit "s" ++ rest) :
  retryDelay (errorMessage e) = Some (of_Z (Z.of_N n))
  /\ exists before,
       thrown p e =
         BadRequestException
           (before ++ lit "建议等待 " ++ decimal n ++ lit " 秒后重试").
Proof.
  assert (Hd : Forall (fun c => isDigitOrDot c = true) (decimal n)).
  { eapply Forall_impl; [apply decimal_digits|].
    intros c Hc. unfold isDigitOrDot. simpl in Hc. rewrite Hc. reflexivity. }
  assert (Hdelay : retryDelay (errorMessage e) = Some (of_Z (Z.of_N n))).
  { unfold retryDelay. rewrite Htext.
    rewrite (retryDelayMatch_head _ _
               (matchHere_phrase (decimal n) rest (decimal_not_nil n) Hd)).
    rewrite parseFloat_decimal. unfold Math_ceil, of_Z.
    rewrite Qceiling_Z. reflexivity. }
  split; [exact Hdelay|].
  rewrite (rate_limited_thrown p e Hrate).
  destruct (rateLimitMessage_hint p e) as [before Hmsg].
  { rewrite Hdelay. cbn [delayTruthy]. rewrite truthy_of_Z.
    destruct (Z.eqb_spec (Z.of_N n) 0); [lia | reflexivity]. }
  exists before. rewrite Hmsg, Hdelay. cbn [delayText].
  rewrite Number_toString_of_Z by lia. rewrite N2Z.id. reflexivity.
Qed.

Lemma integral_delay_is_echoed_witness :
  retryDelay (errorMessage (Samples.onlyStatus 429 "Please retry in 37s."))
    = Some (of_Z (Z.of_N 37))
  /\ exists before,
       thrown deepseek (Samples.onlyStatus 429 "Please retry in 37s.") =
         BadRequestException
           (before ++ lit "建议等待 " ++ decimal 37 ++ lit " 秒后重试").
Proof.
  apply (integral_delay_is_echoed deepseek
           (Samples.onlyStatus 429 "Please retry in 37s.") 37 (lit "."));
    vm_compute; reflexivity.
Defined.

(** ** The controller's streaming response *)

Section Sse.

Variable errorText : RawError -> jsstring.

Implicit Types (res : Response) (timeline : list Happening).

Lemma observer_content (chunk : jsstring) res :
  gone res = false -> writableEnded res = false ->
  observer errorText res (contentMoment chunk)
    = res_write (dataFrame (render (JSON_stringify "content" chunk))) res.
Proof.
  intros Hg He. unfold contentMoment. cbn [observer]. rewrite Hg, He.
  reflexivity.
Qed.

Lemma fold_contents (chunks : list jsstring) res :
  gone res = false -> writableEnded res = false ->
  fold_left (observer errorText) (map contentMoment chunks) res
    = mkResponse (headers res)
        (headersSent res || negb (length chunks =? 0)%nat)
        false false (sent res ++ map contentFrame chunks).
Proof.
  revert res. induction chunks as [|chunk chunks IH]; intros res Hg He.
  - cbn [map fold_left length Nat.eqb negb]. rewrite app_nil_r, orb_false_r.
    destruct res; cbn in *. subst. reflexivity.
  - cbn [map fold_left]. rewrite (observer_content chunk res Hg He).
    rewrite IH by (unfold res_write; cbn [gone writableEnded]; assumption).
    unfold res_write, contentFrame.
    cbn [headers headersSent sent length Nat.eqb negb orb map].
    rewrite <- app_assoc, orb_true_r. reflexivity.
Qed.

(** The response of a run, in closed form. *)
Lemma response_of_run timeline :
  let res :=
    fold_left (observer errorText) (moments (forAwait timeline fresh))
      sseOpened in
  sent res
    = wrote keepAlive :: map contentFrame (leadingChunks timeline)
        ++ closingFrames errorText (interruption timeline)
  /\ headers res = headers sseOpened
  /\ headersSent res = true
  /\ writableEnded res
     = match interruption timeline with
       | Some Unsubscribe => false
       | _ => true
       end
  /\ gone res
     = match interruption timeline with
       | Some Unsubscribe => true
       | _ => false
       end.
Proof.
  cbv zeta.
  destruct (forAwait_open_form timeline fresh eq_refl) as [Hm _].
  cbn [moments fresh app] in Hm.
  rewrite Hm, fold_left_app, fold_contents by reflexivity.
  pose proof (interruption_not_chunk timeline) as Hnc.
  destruct (interruption timeline) as [[chunk|e|]|];
    [destruct (Hnc chunk eq_refl)| | |];
    unfold ending, errorMoment, doneMoment, closingFrames;
    cbn [fold_left observer gone writableEnded headersSent headers sent
         negb andb orb res_end res_write res_close render];
    change (sent sseOpened) with [wrote keepAlive];
    change (headersSent sseOpened) with true;
    rewrite ?app_nil_r, <- ?app_assoc; cbn [app orb negb andb];
    repeat split; reflexivity.
Qed.

Lemma hexDigit_printable (n : N) : (32 <= hexDigit n)%N.
Proof. unfold hexDigit. destruct (n <? 10)%N; lia. Qed.

Lemma unicodeEscape_printable (c : N) :
  Forall (fun x => (32 <= x)%N) (unicodeEscape c).
Proof.
  unfold unicodeEscape.
  do 2 (constructor; [lia|]).
  do 4 (constructor; [apply hexDigit_printable|]).
  constructor.
Qed.

Lemma quoteUnit_printable (c : N) :
  Forall (fun x => (32 <= x)%N) (quoteUnit c).
Proof.
  unfold quoteUnit.
  do 7 (match goal with
        | |- context [if (c =? ?k)%N then _ else _] =>
            destruct (c =? k)%N;
            [constructor; [lia|]; constructor; [lia|]; constructor|]
        end).
  destruct (N.ltb_spec c 32); [apply unicodeEscape_printable|].
  constructor; [assumption | constructor].
Qed.

Lemma surrogate_printable (c : N) :
  isLeadingSurrogate c = true \/ isTrailingSurrogate c = true -> (32 <= c)%N.
Proof.
  unfold isLeadingSurrogate, isTrailingSurrogate.
  intros [H | H]; apply andb_true_iff in H; destruct H as [H _];
    apply N.leb_le in H; lia.
Qed.

Lemma quoteUnits_cons (c : N) (r : jsstring) :
  quoteUnits (c :: r) =
    if isLeadingSurrogate c then
      match r with
      | d :: r' =>
          if isTrailingSurrogate d then c :: d :: quoteUnits r'
          else unicodeEscape c ++ quoteUnits r
      | [] => unicodeEscape c
      end
    else if isTrailingSurrogate c then unicodeEscape c ++ quoteUnits r
    else quoteUnit c ++ quoteUnits r.
Proof. destruct r; reflexivity. Qed.

Lemma quoteUnits_printable_upto (n : nat) (s : jsstring) :
  (length s <= n)%nat -> Forall (fun x => (32 <= x)%N) (quoteUnits s).
Proof.
  revert s. induction n as [|n IH]; intros s Hn.
  - destruct s; [constructor | simpl in Hn; lia].
  - destruct s as [|c r]; [constructor|]. simpl in Hn.
    assert (Hr : Forall (fun x => (32 <= x)%N) (quoteUnits r))
      by (apply IH; lia).
    rewrite quoteUnits_cons. destruct (isLeadingSurrogate c) eqn:El.
    + destruct r as [|d r']; [apply unicodeEscape_printable|].
      destruct (isTrailingSurrogate d) eqn:Et.
      * constructor; [apply surrogate_printable; auto|].
        constructor; [apply surrogate_printable; auto|].
        apply IH. simpl in Hn. lia.
      * apply Forall_app_2; [apply unicodeEscape_printable | exact Hr].
    + destruct (isTrailingSurrogate c).
      * apply Forall_app_2; [apply unicodeEscape_printable | exact Hr].
      * apply Forall_app_2; [apply quoteUnit_printable | exact Hr].
Qed.

Lemma QuoteJSONString_printable (s : jsstring) :
  Forall (fun x => (32 <= x)%N) (QuoteJSONString s).
Proof.
  unfold QuoteJSONString.
  apply Forall_app_2; [repeat constructor; lia|].
  apply Forall_app_2; [|repeat constructor; lia].
  apply (quoteUnits_printable_upto (length s)). lia.
Qed.

Lemma render_json_printable (field : string) (value : jsstring) :
  Forall (fun x => (32 <= x)%N) (render (JSON_stringify field value)).
Proof.
  unfold render.
  apply Forall_app_2; [vm_compute; repeat constructor; discriminate|].
  apply Forall_app_2; [apply QuoteJSONString_printable|].
  apply Forall_app_2; [vm_compute; repeat constructor; discriminate|].
  apply Forall_app_2; [apply QuoteJSONString_printable|].
  vm_compute; repeat constructor; discriminate.
Qed.

Lemma closingFrames_events (h : option Happening) (item : Sent) :
  In item (closingFrames errorText h) -> exists s, item = wrote s /\ oneEvent s.
Proof.
  destruct h as [[chunk|e|]|]; unfold closingFrames; cbn [In]; try tauto.
  - intros [<- | [<- | []]]; eexists; (split; [reflexivity|]); right;
      eexists; (split; [reflexivity | apply render_json_printable]).
  - intros [<- | []]. eexists. split; [reflexivity|]. right.
    exists (lit "[DONE]"). split; [reflexivity|].
    vm_compute. repeat constructor; discriminate.
Qed.

End Sse.

Section SseRuns.

Variables (env : Env) (sdk : gmap string ParamValue -> Settled)
  (world : gmap string ParamValue -> list Happening)
  (errorText : RawError -> jsstring).

Lemma leadingChunks_app (chunks : list jsstring) (rest : list Happening) :
  leadingChunks (map Chunk chunks ++ rest) = chunks ++ leadingChunks rest.
Proof. induction chunks as [|c cs IH]; simpl; [|rewrite IH]; reflexivity. Qed.

Lemma interruption_app (chunks : list jsstring) (rest : list Happening) :
  interruption (map Chunk chunks ++ rest) = interruption rest.
Proof. induction chunks as [|c cs IH]; simpl; [|rewrite IH]; reflexivity. Qed.

Lemma generate_streams (body : GenerateTextDto) (o : Observable) :
  stream body = true -> generateTextStream env body = Return o ->
  generate env sdk world errorText body
    = (fold_left (observer errorText)
         (moments (forAwait (world (o_requestParams o)) fresh)) sseOpened,
       None).
Proof. intros Hs Ho. unfold generate. rewrite Hs, Ho. reflexivity. Qed.

End SseRuns.

(** X15. A streaming request whose upstream stream ends normally is
    answered with the keep-alive comment, one data frame per chunk in the
    order of the chunks, and the [DONE] frame; then the response is ended.
    No exception leaves the handler. *)
Theorem sse_completed_response
  (env : Env) (sdk : gmap string ParamValue -> Settled)
  (world : gmap string ParamValue -> list Happening)
  (errorText : RawError -> jsstring)
  (body : GenerateTextDto) (o : Observable) (chunks : list jsstring)
  (Hstream : stream body = true)
  (Hobs : generateTextStream env body = Return o)
  (Hworld : world (o_requestParams o) = map Chunk chunks) :
  exists res,
    generate env sdk world errorText body = (res, None)
    /\ sent res
       = wrote keepAlive :: map contentFrame chunks
           ++ [wrote (dataFrame (lit "[DONE]"))]
    /\ writableEnded res = true.
Proof.
  rewrite (generate_streams env sdk world errorText body o Hstream Hobs).
  eexists. split; [reflexivity|].
  destruct (response_of_run errorText (world (o_requestParams o)))
    as (Hsent & _ & _ & Hend & _).
  rewrite Hsent, Hend, Hworld.
  rewrite <- (app_nil_r (map Chunk chunks)).
  rewrite leadingChunks_app, interruption_app, app_nil_r.
  split; reflexivity.
Qed.

Lemma sse_completed_response_witness :
  exists res,
    generate (fun _ => Some (lit "sk-test"))
      (fun _ => Rejected Samples.rateLimit429)
      (fun _ => map Chunk [lit "a"; lit "b"]) (fun _ => [])
      (mkDto (lit "openai") (Some (lit "gpt-4o")) (Some (lit "hi")) None
         None None true)
    = (res, None)
    /\ sent res
       = wrote keepAlive :: map contentFrame [lit "a"; lit "b"]
           ++ [wrote (dataFrame (lit "[DONE]"))]
    /\ writableEnded res = true.
Proof.
  eapply (sse_completed_response (fun _ => Some (lit "sk-test"))
            (fun _ => Rejected Samples.rateLimit429)
            (fun _ => map Chunk [lit "a"; lit "b"]) (fun _ => []));
    [reflexivity | vm_compute; reflexivity | reflexivity].
Defined.

(** X16. When the upstream fails in the middle of a streaming request that
    the client is still listening to, the response carries the frames of
    the chunks received so far and then two error frames: the one the
    service emits, with the upstream message or the fixed text, and the
    one the controller writes on the error notification, with the text it
    takes from the error. The response is then ended, without a [DONE]
    frame and without a 500 status, the headers being out already. *)
Theorem sse_failure_writes_two_error_frames
  (env : Env) (sdk : gmap string ParamValue -> Settled)
  (world : gmap string ParamValue -> list Happening)
  (errorText : RawError -> jsstring)
  (body : GenerateTextDto) (o : Observable) (chunks : list jsstring)
  (e : RawError) (rest : list Happening)
  (Hstream : stream body = true)
  (Hobs : generateTextStream env body = Return o)
  (Hworld : world (o_requestParams o) = map Chunk chunks ++ Fails e :: rest) :
  exists res,
    generate env sdk world errorText body = (res, None)
    /\ sent res
       = wrote keepAlive :: map contentFrame chunks
           ++ [wrote (dataFrame
                        (render (JSON_stringify "error"
                                   (opt_or_else (e_message e)
                                      (lit "流式生成失败")))));
               wrote (dataFrame
                        (render (JSON_stringify "error" (errorText e))))]
    /\ writableEnded res = true.
Proof.
  rewrite (generate_streams env sdk world errorText body o Hstream Hobs).
  eexists. split; [reflexivity|].
  destruct (response_of_run errorText (world (o_requestParams o)))
    as (Hsent & _ & _ & Hend & _).
  rewrite Hsent, Hend, Hworld, leadingChunks_app, interruption_app.
  cbn [leadingChunks interruption]. rewrite app_nil_r.
  split; reflexivity.
Qed.

Lemma sse_failure_writes_two_error_frames_witness :
  exists res,
    generate (fun _ => Some (lit "sk-test"))
      (fun _ => Rejected Samples.rateLimit429)
      (fun _ => map Chunk [lit "a"] ++ Fails Samples.rateLimit429 :: [])
      (fun _ => lit "Rate limit reached")
      (mkDto (lit "openai") (Some (lit "gpt-4o")) (Some (lit "hi")) None
         None None true)
    = (res, None)
    /\ sent res
       = wrote keepAlive :: map contentFrame [lit "a"]
           ++ [wrote (dataFrame
                        (render (JSON_stringify "error"
                                   (opt_or_else
                                      (e_message Samples.rateLimit429)
                                      (lit "流式生成失败")))));
               wrote (dataFrame
                        (render (JSON_stringify "error"
                                   (lit "Rate limit reached"))))]
    /\ writableEnded res = true.
Proof.
  eapply (sse_failure_writes_two_error_frames (fun _ => Some (lit "sk-test"))
            (fun _ => Rejected Samples.rateLimit429)
            (fun _ => map Chunk [lit "a"] ++ Fails Samples.rateLimit429 :: [])
            (fun _ => lit "Rate limit reached"));
    [reflexivity | vm_compute; reflexivity | reflexivity].
Defined.

(** X17. When the client leaves in the middle of a streaming request, the
    response holds the keep-alive comment and the frames of the chunks
    delivered before; whatever the upstream does afterwards, nothing more
    is written, no [DONE] frame and no error frame, and the handler does
    not end the response. *)
Theorem sse_client_left
  (env : Env) (sdk : gmap string ParamValue -> Settled)
  (world : gmap string ParamValue -> list Happening)
  (errorText : RawError -> jsstring)
  (body : GenerateTextDto) (o : Observable) (chunks : list jsstring)
  (rest : list Happening)
  (Hstream : stream body = true)
  (Hobs : generateTextStream env body = Return o)
  (Hworld : world (o_requestParams o)
            = map Chunk chunks ++ Unsubscribe :: rest) :
  exists res,
    generate env sdk world errorText body = (res, None)
    /\ sent res = wrote keepAlive :: map contentFrame chunks
    /\ writableEnded res = false
    /\ gone res = true.
Proof.
  rewrite (generate_streams env sdk world errorText body o Hstream Hobs).
  eexists. split; [reflexivity|].
  destruct (response_of_run errorText (world (o_requestParams o)))
    as (Hsent & _ & _ & Hend & Hgone).
  rewrite Hsent, Hend, Hgone, Hworld, leadingChunks_app, interruption_app.
  cbn [leadingChunks interruption closingFrames]. rewrite !app_nil_r.
  repeat split; reflexivity.
Qed.

Lemma sse_client_left_witness :
  exists res,
    generate (fun _ => Some (lit "sk-test"))
      (fun _ => Rejected Samples.rateLimit429)
      (fun _ => map Chunk [lit "a"] ++ Unsubscribe :: [Chunk (lit "b")])
      (fun _ => [])
      (mkDto (lit "openai") (Some (lit "gpt-4o")) (Some (lit "hi")) None
         None None true)
    = (res, None)
    /\ sent res = wrote keepAlive :: map contentFrame [lit "a"]
    /\ writableEnded res = false
    /\ gone res = true.
Proof.
  eapply (sse_client_left (fun _ => Some (lit "sk-test"))
            (fun _ => Rejected Samples.rateLimit429)
            (fun _ => map Chunk [lit "a"] ++ Unsubscribe :: [Chunk (lit "b")])
            (fun _ => []));
    [reflexivity | vm_compute; reflexivity | reflexivity].
Defined.

(** X18. Whatever the chunks and the error texts hold, everything written
    to a streaming response is one event: the keep-alive comment, or a
    data frame whose payload has no control character, a line break in a
    chunk being escaped by [JSON.stringify]. So no chunk can cut a frame in
    two, and the 500 body of the error callback is never sent. *)
Theorem sse_frames_are_single_events
  (env : Env) (sdk : gmap string ParamValue -> Settled)
  (world : gmap string ParamValue -> list Happening)
  (errorText : RawError -> jsstring)
  (body : GenerateTextDto) (item : Sent)
  (Hstream : stream body = true)
  (Hin : In item (sent (fst (generate env sdk world errorText body)))) :
  exists s, item = wrote s /\ oneEvent s.
Proof.
  unfold generate in Hin. rewrite Hstream in Hin.
  destruct (generateTextStream env body) as [o|e]; cbn [fst] in Hin.
  - unfold subscribe in Hin.
    destruct (response_of_run errorText (world (o_requestParams o)))
      as (Hsent & _).
    rewrite Hsent in Hin. destruct Hin as [<- | Hin].
    + eexists. split; [reflexivity | left; reflexivity].
    + apply in_app_or in Hin. destruct Hin as [Hin | Hin].
      * apply in_map_iff in Hin. destruct Hin as (chunk & <- & _).
        eexists. split; [reflexivity|]. right.
        eexists. split; [reflexivity | apply render_json_printable].
      * exact (closingFrames_events errorText _ _ Hin).
  - change (sent sseOpened) with [wrote keepAlive] in Hin.
    destruct Hin as [<- | []].
    eexists. split; [reflexivity | left; reflexivity].
Qed.

Lemma sse_frames_are_single_events_witness :
  exists s,
    contentFrame [97; 10; 98]%N = wrote s /\ oneEvent s.
Proof.
  apply (sse_frames_are_single_events (fun _ => Some (lit "sk-test"))
           (fun _ => Rejected Samples.rateLimit429)
           (fun _ => [Chunk [97; 10; 98]%N]) (fun _ => [])
           (mkDto (lit "openai") (Some (lit "gpt-4o")) (Some (lit "hi")) None
              None None true));
    [reflexivity|].
  vm_compute. right. left. reflexivity.
Defined.

(** X19. The exception that leaves [generate] is the one the service
    threw, and what has been sent by then depends on the mode. In
    streaming mode an exception leaves only before the generation starts:
    it is the validation or credential failure of [generateTextStream],
    never an upstream error, and by then the event-stream headers are
    flushed and the keep-alive comment is written. In plain mode it is the
    failure of [generateText]: a validation failure, a missing credential
    or, after the SDK call was rejected, the exception that the [catch]
    block makes of the upstream error; and nothing has been sent, no
    header set. *)
Theorem generate_exceptions
  (env : Env) (sdk : gmap string ParamValue -> Settled)
  (world : gmap string ParamValue -> list Happening)
  (errorText : RawError -> jsstring)
  (body : GenerateTextDto) (res : Response) (e : Exception)
  (Hthrows : generate env sdk world errorText body = (res, Some e)) :
  (stream body = true ->
   generateTextStream env body = Throw e
   /\ res = sseOpened /\ headersSent res = true
   /\ sent res = [wrote keepAlive]
   /\ In (lit "Content-Type", lit "text/event-stream") (headers res)
   /\ ((validateAndNormalizeParams body = Throw e
        /\ exists msg, e = BadRequestException msg)
       \/ exists p, provider body = id_of p
                    /\ e = InternalServerErrorException (missingKeyMessage p)))
  /\ (stream body = false ->
      generateText env sdk body = Throw e /\ res = newResponse
      /\ headersSent res = false /\ sent res = [] /\ headers res = []
      /\ ((validateAndNormalizeParams body = Throw e
           /\ exists msg, e = BadRequestException msg)
          \/ (exists p, provider body = id_of p
                        /\ e = InternalServerErrorException
                                 (missingKeyMessage p))
          \/ (exists p c sdkp err,
                validateAndNormalizeParams body = Return c
                /\ provider body = id_of p
                /\ create env p = Return sdkp
                /\ sdk (syncRequestParams sdkp c) = Rejected err
                /\ e = thrown p err))).
Proof.
  unfold generate in Hthrows. split; intros Hs; rewrite Hs in Hthrows.
  - destruct (generateTextStream env body) as [o|e'] eqn:Eg;
      [discriminate|].
    inversion Hthrows; subst. split; [reflexivity|].
    split; [reflexivity|]. split; [reflexivity|].
    split; [reflexivity|]. split; [left; reflexivity|].
    unfold generateTextStream, bind in Eg.
    destruct (validateAndNormalizeParams body) as [c|e'] eqn:Ev.
    + destruct (normalized_provider _ _ Ev) as (p & Hid & Hentry).
      destruct (validate_returns _ _ Ev) as (_ & _ & _ & _ & Hprov & _).
      rewrite Hentry in Eg. destruct (create env p) as [sdkp|e''] eqn:Ec;
        [discriminate|].
      inversion Eg; subst. right. exists p.
      split; [congruence | exact (create_throws _ _ _ Ec)].
    + inversion Eg; subst. left.
      split; [reflexivity | exact (validate_throws _ _ Ev)].
  - destruct (generateText env sdk body) as [r|e'] eqn:Eg; [discriminate|].
    inversion Hthrows; subst. split; [reflexivity|].
    split; [reflexivity|]. split; [reflexivity|].
    split; [reflexivity|]. split; [reflexivity|].
    unfold generateText, bind in Eg.
    destruct (validateAndNormalizeParams body) as [c|e'] eqn:Ev.
    + destruct (normalized_provider _ _ Ev) as (p & Hid & Hentry).
      destruct (validate_returns _ _ Ev) as (_ & _ & _ & _ & Hprov & _).
      rewrite Hentry in Eg. destruct (create env p) as [sdkp|e''] eqn:Ec.
      * destruct (sdk (syncRequestParams sdkp c)) as [result|err] eqn:Esdk;
          [discriminate|].
        inversion Eg; subst. right. right. exists p, c, sdkp, err.
        split; [reflexivity|]. split; [congruence|].
        split; [exact Ec|]. split; [exact Esdk | reflexivity].
      * inversion Eg; subst. right. left. exists p.
        split; [congruence | exact (create_throws _ _ _ Ec)].
    + inversion Eg; subst. left.
      split; [reflexivity | exact (validate_throws _ _ Ev)].
Qed.

Lemma generate_exceptions_witness :
  (generateTextStream Samples.emptyEnv
     (mkDto (lit "deepseek") (Some (lit "deepseek-chat")) (Some (lit "hi"))
        None None None true)
   = Throw (InternalServerErrorException (missingKeyMessage deepseek))
   /\ sseOpened = sseOpened /\ headersSent sseOpened = true
   /\ sent sseOpened = [wrote keepAlive]
   /\ In (lit "Content-Type", lit "text/event-stream") (headers sseOpened)
   /\ ((validateAndNormalizeParams
          (mkDto (lit "deepseek") (Some (lit "deepseek-chat"))
             (Some (lit "hi")) None None None true)
        = Throw (InternalServerErrorException (missingKeyMessage deepseek))
        /\ exists msg,
             InternalServerErrorException (missingKeyMessage deepseek)
             = BadRequestException msg)
       \/ exists p,
            provider (mkDto (lit "deepseek") (Some (lit "deepseek-chat"))
                        (Some (lit "hi")) None None None true) = id_of p
            /\ InternalServerErrorException (missingKeyMessage deepseek)
               = InternalServerErrorException (missingKeyMessage p)))
  /\ generateText (fun _ => Some (lit "sk-test"))
       (fun _ => Rejected Samples.rateLimit429)
       (mkDto (lit "openai") (Some (lit "gpt-4o")) (Some (lit "hi"))
          None None None false)
     = Throw (thrown openai Samples.rateLimit429).
Proof.
  split.
  - destruct (generate_exceptions Samples.emptyEnv
                (fun _ => Rejected Samples.rateLimit429) (fun _ => [])
                (fun _ => [])
                (mkDto (lit "deepseek") (Some (lit "deepseek-chat"))
                   (Some (lit "hi")) None None None true)
                sseOpened
                (InternalServerErrorException (missingKeyMessage deepseek)))
      as [H _]; [vm_compute; reflexivity|].
    apply H. reflexivity.
  - destruct (generate_exceptions (fun _ => Some (lit "sk-test"))
                (fun _ => Rejected Samples.rateLimit429) (fun _ => [])
                (fun _ => [])
                (mkDto (lit "openai") (Some (lit "gpt-4o")) (Some (lit "hi"))
                   None None None false)
                newResponse (thrown openai Samples.rateLimit429))
      as [_ H]; [vm_compute; reflexivity|].
    apply H. reflexivity.
Defined.

(** ** Credentials, again *)

(** X20. The credential variable that an Unauthorized or a Forbidden
    message names is the very variable from which [create] reads the key
    of that provider: the operator is sent to the setting that the service
    uses. *)
Theorem named_credential_is_the_one_read (p : ProviderId) (e : RawError)
  (Hcat : category_of p e = Unauthorized
          \/ category_of p e = ForbiddenLeaked
          \/ category_of p e = ForbiddenOther) :
  (exists msg, thrown p e = BadRequestException msg
               /\ includes msg (envKey p) = true)
  /\ (forall env key,
        env (envKey p) = Some key -> JsString.truthy key = true ->
        create env p = Return (mkProvider p key))
  /\ (forall env,
        opt_truthy (env (envKey p)) = false ->
        exists msg, create env p = Throw (InternalServerErrorException msg)
                    /\ includes msg (envKey p) = true).
Proof.
  split; [|split].
  - unfold category_of, thrown, handleError in *.
    rewrite envVarName_of_id.
    destruct (isParameterError e);
      [destruct Hcat as [H | [H | H]]; discriminate H|].
    destruct (isBalanceError e);
      [destruct Hcat as [H | [H | H]]; discriminate H|].
    destruct (isRateLimitError e);
      [destruct Hcat as [H | [H | H]]; discriminate H|].
    destruct (isPermissionError e).
    + destruct (includes (errorMessage e) (lit "leaked"));
        eexists; (split; [reflexivity|]); cbn [snd].
      * apply includes_app_r, includes_app_r, includes_app_r, includes_prefix.
      * apply includes_app_r, includes_prefix.
    + destruct (isAuthError e);
        [|destruct Hcat as [H | [H | H]]; discriminate H].
      eexists. split; [reflexivity|]. cbn [snd].
      apply includes_app_r, includes_prefix.
  - intros env key. apply create_with_key.
  - intros env Habsent. eexists.
    split; [apply create_without_key, Habsent|].
    apply missingKeyMessage_cites_key.
Qed.

Lemma named_credential_is_the_one_read_witness :
  exists msg,
    thrown gemini (Samples.onlyStatus 401 "Unauthorized")
    = BadRequestException msg
    /\ includes msg (envKey gemini) = true.
Proof.
  destruct (named_credential_is_the_one_read gemini
              (Samples.onlyStatus 401 "Unauthorized")) as [H _].
  - left. vm_compute. reflexivity.
  - exact H.
Defined.
